(** * Wikipedia TOC scraper: URL policy validator, heading-level resolver,
      TOC extractor and Lambda request handler ([src/toc_scraper/app.py]).

    Python [str] values are sequences of Unicode code points; they are
    modelled as [list Z].  ASCII literals of the source are written with
    [u "..."]; non-ASCII literals are written out as code points. *)

From Stdlib Require Import ZArith List String Ascii Bool Lia.
Import ListNotations.
Open Scope string_scope.
Open Scope list_scope.
Open Scope Z_scope.
Set Warnings "-register-all".

(** ** Python strings *)

Definition ustr := list Z.

Fixpoint u (s : string) : ustr :=
  match s with
  | EmptyString => []
  | String a s' => Z.of_nat (nat_of_ascii a) :: u s'
  end.

Fixpoint ueqb (a b : ustr) : bool :=
  match a, b with
  | [], [] => true
  | x :: a', y :: b' => (x =? y) && ueqb a' b'
  | _, _ => false
  end.

(** [str.isspace]: the Unicode whitespace characters of CPython. *)
Definition py_isspace (c : Z) : bool :=
  ((9 <=? c) && (c <=? 13)) || ((28 <=? c) && (c <=? 32)) || (c =? 133)
  || (c =? 160) || (c =? 5760) || ((8192 <=? c) && (c <=? 8202))
  || (c =? 8232) || (c =? 8233) || (c =? 8239) || (c =? 8287)
  || (c =? 12288).

Fixpoint lstrip_by (p : Z -> bool) (s : ustr) : ustr :=
  match s with
  | [] => []
  | c :: s' => if p c then lstrip_by p s' else s
  end.

Definition rstrip_by (p : Z -> bool) (s : ustr) : ustr :=
  rev (lstrip_by p (rev s)).

(** [str.strip()] *)
Definition py_strip (s : ustr) : ustr :=
  rstrip_by py_isspace (lstrip_by py_isspace s).

(** [str.startswith] / [str.endswith] *)
Fixpoint startswith (p s : ustr) : bool :=
  match p, s with
  | [], _ => true
  | x :: p', y :: s' => (x =? y) && startswith p' s'
  | _ :: _, [] => false
  end.

Definition endswith (p s : ustr) : bool := startswith (rev p) (rev s).

(** [c in s] *)
Definition contains (c : Z) (s : ustr) : bool := existsb (Z.eqb c) s.

(** [s.split(c, 1)] when [c in s]: the part before the first [c] and the
    part after it. *)
Fixpoint split_first (c : Z) (s : ustr) : option (ustr * ustr) :=
  match s with
  | [] => None
  | x :: s' =>
      if x =? c then Some ([], s')
      else match split_first c s' with
           | Some (a, b) => Some (x :: a, b)
           | None => None
           end
  end.

(** [s.partition(c)]: (before, found, after). *)
Definition partition (c : Z) (s : ustr) : ustr * bool * ustr :=
  match split_first c s with
  | Some (a, b) => (a, true, b)
  | None => (s, false, [])
  end.

(** [s.rpartition(c)[2]]: what follows the last [c], or [s]. *)
Definition rpartition_after (c : Z) (s : ustr) : ustr :=
  match split_first c (rev s) with
  | Some (a, _) => rev a
  | None => s
  end.

(** [s.replace(c, "")] *)
Definition remove_char (c : Z) (s : ustr) : ustr :=
  filter (fun x => negb (x =? c)) s.

(** Break [s] before the first character satisfying [p]. *)
Fixpoint break_at (p : Z -> bool) (s : ustr) : ustr * ustr :=
  match s with
  | [] => ([], [])
  | x :: s' =>
      if p x then ([], s)
      else let (a, b) := break_at p s' in (x :: a, b)
  end.

Definition is_ascii_alpha (c : Z) : bool :=
  ((65 <=? c) && (c <=? 90)) || ((97 <=? c) && (c <=? 122)).

Definition is_ascii_digit (c : Z) : bool := (48 <=? c) && (c <=? 57).

Definition is_hex_digit (c : Z) : bool :=
  is_ascii_digit c || ((65 <=? c) && (c <=? 70)) || ((97 <=? c) && (c <=? 102)).

Definition hex_val (c : Z) : Z :=
  if is_ascii_digit c then c - 48
  else if (65 <=? c) && (c <=? 70) then c - 55
  else c - 87.

(** [str.lower()] on ASCII characters (the only ones it meets below). *)
Definition ascii_lower (c : Z) : Z :=
  if (65 <=? c) && (c <=? 90) then c + 32 else c.

(** ** [urllib.parse.unquote] (encoding utf-8, errors "replace") *)

(** [unquote_to_bytes] on an ASCII run: [%XY] with two hex digits is the
    byte [0xXY]; any other character, a lone [%] included, is its own byte. *)
Fixpoint unquote_to_bytes (s : ustr) : list Z :=
  match s with
  | [] => []
  | c :: s' =>
      if c =? 37 then
        match s' with
        | h1 :: h2 :: s'' =>
            if is_hex_digit h1 && is_hex_digit h2
            then (16 * hex_val h1 + hex_val h2) :: unquote_to_bytes s''
            else 37 :: unquote_to_bytes s'
        | _ => 37 :: unquote_to_bytes s'
        end
      else c :: unquote_to_bytes s'
  end.

Definition in_range (lo hi b : Z) : bool := (lo <=? b) && (b <=? hi).

Definition is_cont (b : Z) : bool := in_range 128 191 b.

Definition replacement_char : Z := 65533.

(** [bytes.decode("utf-8", "replace")]: a maximal valid prefix of an
    ill-formed sequence is replaced by one U+FFFD and decoding resumes at
    the offending byte. *)
Fixpoint utf8_decode (bs : list Z) : ustr :=
  match bs with
  | [] => []
  | b :: rest =>
      if b <? 128 then b :: utf8_decode rest
      else if in_range 194 223 b then
        match rest with
        | c1 :: r1 =>
            if is_cont c1 then (64 * (b - 192) + (c1 - 128)) :: utf8_decode r1
            else replacement_char :: utf8_decode rest
        | [] => [replacement_char]
        end
      else if in_range 224 239 b then
        match rest with
        | c1 :: r1 =>
            if in_range (if b =? 224 then 160 else 128)
                        (if b =? 237 then 159 else 191) c1 then
              match r1 with
              | c2 :: r2 =>
                  if is_cont c2 then
                    (4096 * (b - 224) + 64 * (c1 - 128) + (c2 - 128))
                      :: utf8_decode r2
                  else replacement_char :: utf8_decode r1
              | [] => [replacement_char]
              end
            else replacement_char :: utf8_decode rest
        | [] => [replacement_char]
        end
      else if in_range 240 244 b then
        match rest with
        | c1 :: r1 =>
            if in_range (if b =? 240 then 144 else 128)
                        (if b =? 244 then 143 else 191) c1 then
              match r1 with
              | c2 :: r2 =>
                  if is_cont c2 then
                    match r2 with
                    | c3 :: r3 =>
                        if is_cont c3 then
                          (262144 * (b - 240) + 4096 * (c1 - 128)
                             + 64 * (c2 - 128) + (c3 - 128)) :: utf8_decode r3
                        else replacement_char :: utf8_decode r2
                    | [] => [replacement_char]
                    end
                  else replacement_char :: utf8_decode r1
              | [] => [replacement_char]
              end
            else replacement_char :: utf8_decode rest
        | [] => [replacement_char]
        end
      else replacement_char :: utf8_decode rest
  end.

Definition decode_run (run : ustr) : ustr :=
  utf8_decode (unquote_to_bytes run).

(** [unquote] splits the string into maximal ASCII runs, each decoded with
    [unquote_to_bytes(..).decode(..)], and non-ASCII characters, kept.
    [run] holds the current ASCII run, reversed. *)
Fixpoint unquote_go (run : ustr) (s : ustr) : ustr :=
  match s with
  | [] => decode_run (rev run)
  | c :: s' =>
      if c <? 128 then unquote_go (c :: run) s'
      else decode_run (rev run) ++ c :: unquote_go [] s'
  end.

Definition unquote (s : ustr) : ustr :=
  if contains 37 s then unquote_go [] s else s.

(** ** [urllib.parse.urlsplit] / [urlparse] (CPython 3.12)

    Two functions of the Python library that [urlsplit] consults only on
    unusual netlocs are kept abstract: [unicodedata.normalize("NFKC", _)]
    (consulted only for a non-ASCII netloc) and [ipaddress.ip_address]
    (consulted only for a bracketed host), the latter returning [None] when
    it raises [ValueError], [Some true] for an IPv6 and [Some false] for an
    IPv4 address. *)

Record SplitResult := {
  sr_scheme : ustr; sr_netloc : ustr; sr_path : ustr;
  sr_query : ustr; sr_fragment : ustr }.

Record ParseResult := {
  pr_scheme : ustr; pr_netloc : ustr; pr_path : ustr; pr_params : ustr;
  pr_query : ustr; pr_fragment : ustr }.

(** [scheme_chars]: ASCII letters, digits and ["+-."]. *)
Definition scheme_char (c : Z) : bool :=
  is_ascii_alpha c || is_ascii_digit c || (c =? 43) || (c =? 45) || (c =? 46).

(** [_WHATWG_C0_CONTROL_OR_SPACE] *)
Definition is_c0_or_space (c : Z) : bool := (0 <=? c) && (c <=? 32).

Definition is_netloc_delim (c : Z) : bool := (c =? 47) || (c =? 63) || (c =? 35).

(** [re.match(r"\Av[a-fA-F0-9]+\..+\Z", hostname)] *)
Definition ipvfuture_ok (h : ustr) : bool :=
  match h with
  | v :: rest =>
      (v =? 118) &&
      (let (hx, after) := break_at (fun c => negb (is_hex_digit c)) rest in
       match hx, after with
       | _ :: _, dot :: (_ :: _) as tl => (dot =? 46) && negb (contains 10 tl)
       | _, _ => false
       end)
  | [] => false
  end.

Section UrlLib.

Variable nfkc : ustr -> ustr.
Variable ip_address : ustr -> option bool.

(** [_check_bracketed_host]: [true] when it does not raise. *)
Definition check_bracketed_host (h : ustr) : bool :=
  if startswith (u "v") h then ipvfuture_ok h
  else match ip_address h with
       | Some true => true
       | _ => false
       end.

(** [_check_bracketed_netloc] *)
Definition check_bracketed_netloc (netloc : ustr) : bool :=
  let hp := rpartition_after 64 netloc in
  match partition 91 hp with
  | (before, true, bracketed) =>
      match before with
      | _ :: _ => false
      | [] =>
          match partition 93 bracketed with
          | (host, _, port) =>
              match port with
              | [] => check_bracketed_host host
              | c :: _ => (c =? 58) && check_bracketed_host host
              end
          end
      end
  | _ => true
  end.

(** The bracket checks [urlsplit] makes on the netloc: [false] when it
    raises [ValueError]. *)
Definition netloc_brackets_ok (nl : ustr) : bool :=
  let ob := contains 91 nl in
  let cb := contains 93 nl in
  if (ob && negb cb) || (cb && negb ob) then false
  else if ob && cb then check_bracketed_netloc nl
  else true.

(** [for b in _UNSAFE_URL_BYTES_TO_REMOVE: url = url.replace(b, "")]:
    tab, carriage return and line feed are removed. *)
Definition remove_unsafe (url : ustr) : ustr :=
  remove_char 10 (remove_char 13 (remove_char 9 url)).

(** [_checknetloc] *)
Definition checknetloc (netloc : ustr) : bool :=
  match netloc with
  | [] => true
  | _ =>
      if forallb (fun c => c <? 128) netloc then true
      else
        let n := remove_char 63 (remove_char 35 (remove_char 58 (remove_char 64 netloc))) in
        let n2 := nfkc n in
        if ueqb n n2 then true
        else negb (existsb (fun c => contains c n2) (u "/?#@:"))
  end.

(** [urlsplit(url)]; [None] when it raises [ValueError]. *)
Definition urlsplit (url0 : ustr) : option SplitResult :=
  let url1 := lstrip_by is_c0_or_space url0 in
  let url2 := remove_unsafe url1 in
  let '(scheme, url3) :=
    match split_first 58 url2 with
    | Some ((c0 :: _) as pre, post) =>
        if (c0 <? 128) && is_ascii_alpha c0 && forallb scheme_char pre
        then (map ascii_lower pre, post) else ([], url2)
    | _ => ([], url2)
    end in
  let '(netloc, url4, ok) :=
    if startswith (u "//") url3 then
      let (nl, r) := break_at is_netloc_delim (skipn 2 url3) in
      (nl, r, netloc_brackets_ok nl)
    else ([], url3, true) in
  if negb ok then None else
  let '(url5, fragment) :=
    match split_first 35 url4 with
    | Some (a, b) => (a, b)
    | None => (url4, [])
    end in
  let '(url6, query) :=
    match split_first 63 url5 with
    | Some (a, b) => (a, b)
    | None => (url5, [])
    end in
  if checknetloc netloc then
    Some {| sr_scheme := scheme; sr_netloc := netloc; sr_path := url6;
            sr_query := query; sr_fragment := fragment |}
  else None.

End UrlLib.

Definition uses_params : list ustr :=
  map u [""; "ftp"; "hdl"; "prospero"; "http"; "imap"; "https"; "shttp";
         "rtsp"; "rtsps"; "rtspu"; "sip"; "sips"; "mms"; "sftp"; "tel"].

(** [s.rsplit(c, 1)] when [c in s]: the parts before and after the last [c]. *)
Definition split_last (c : Z) (s : ustr) : option (ustr * ustr) :=
  match split_first c (rev s) with
  | Some (a, b) => Some (rev b, rev a)
  | None => None
  end.

(** [_splitparams]: [url.find(';', url.rfind('/'))] looks for the first
    [';'] after the last ['/']. *)
Definition splitparams (url : ustr) : ustr * ustr :=
  match split_last 47 url with
  | Some (before, after) =>
      match split_first 59 after with
      | Some (a, b) => (before ++ 47 :: a, b)
      | None => (url, [])
      end
  | None =>
      match split_first 59 url with
      | Some (a, b) => (a, b)
      | None => (url, [])
      end
  end.

(** [urlparse(url)] *)
Definition urlparse nfkc ip_address (url : ustr) : option ParseResult :=
  match urlsplit nfkc ip_address url with
  | None => None
  | Some sr =>
      let '(path, params) :=
        if existsb (ueqb (sr_scheme sr)) uses_params && contains 59 (sr_path sr)
        then splitparams (sr_path sr) else (sr_path sr, []) in
      Some {| pr_scheme := sr_scheme sr; pr_netloc := sr_netloc sr;
              pr_path := path; pr_params := params;
              pr_query := sr_query sr; pr_fragment := sr_fragment sr |}
  end.

(** ** [validate_wikipedia_url] *)

(** The literal prefixes of [forbidden_patterns] (each pattern is ['^']
    followed by the prefix), in source order. *)
Definition forbidden_patterns : list ustr :=
  [ u "Special:";
    [29305; 21029; 58];                          (* 特別: *)
    u "User:";
    [21033; 29992; 32773; 58];                   (* 利用者: *)
    u "User_talk:";
    [21033; 29992; 32773; 8208; 20250; 35441; 58]; (* 利用者‐会話: *)
    u "Wikipedia:";
    [12494; 12540; 12488; 58];                   (* ノート: *)
    u "Talk:";
    [12501; 12449; 12452; 12523; 58];            (* ファイル: *)
    u "File:";
    u "Media:";
    [12459; 12486; 12468; 12522; 58];            (* カテゴリ: *)
    u "Category:";
    u "Template:";
    u "Help:";
    u "Portal:";
    u "Draft:";
    u "Book:";
    u "Module:";
    u "MediaWiki:";
    u "Project:" ].

(** Character comparison of [re] under [re.IGNORECASE] against the
    characters of the patterns (ASCII letters, [':'], ['_'], kana, kanji
    and U+2010): a character matches a pattern letter when their simple
    lower cases agree ([İ] U+0130 and the Kelvin sign U+212A lower to [i]
    and [k]) or when they are in one of [sre]'s extra equivalence classes
    [{i, ı}] and [{s, ſ}]. *)
Definition re_fold (c : Z) : Z :=
  if (65 <=? c) && (c <=? 90) then c + 32
  else if (c =? 304) || (c =? 305) then 105
  else if c =? 383 then 115
  else if c =? 8490 then 107
  else c.

(** [re.match("^" + p, s, re.IGNORECASE)] for a literal prefix [p]. *)
Fixpoint match_prefix_ci (p s : ustr) : bool :=
  match p, s with
  | [], _ => true
  | x :: p', y :: s' => (re_fold x =? re_fold y) && match_prefix_ci p' s'
  | _ :: _, [] => false
  end.

(** Prefixes that do not appear in [forbidden_patterns]: the [WP:]
    shortcut and the Japanese administrative page names. *)
Definition absent_shortcuts : list ustr :=
  [ u "WP:";
    [21066; 38500; 20381; 38972];                          (* 削除依頼 *)
    [21066; 38500; 12398; 24489; 24112; 20381; 38972];      (* 削除の復帰依頼 *)
    [24489; 24112; 20381; 38972];                          (* 復帰依頼 *)
    [12502; 12525; 12483; 12463; 20381; 38972];            (* ブロック依頼 *)
    [25237; 31295; 12502; 12525; 12483; 12463; 20381; 38972]; (* 投稿ブロック依頼 *)
    [31649; 29702; 32773; 20253; 35328; 26495] ].          (* 管理者伝言板 *)

(** [a] and [b] agree, up to [re_fold], on their common length: a string
    can start with both only then. *)
Fixpoint fold_compat (a b : ustr) : bool :=
  match a, b with
  | x :: a', y :: b' => (re_fold x =? re_fold y) && fold_compat a' b'
  | _, _ => true
  end.

(** The first pattern of the table that matches. *)
Fixpoint first_match (pats : list ustr) (s : ustr) : option ustr :=
  match pats with
  | [] => None
  | p :: ps => if match_prefix_ci p s then Some p else first_match ps s
  end.

Definition msg_required : ustr := u "URL is required".
Definition msg_invalid_format : ustr := u "Invalid URL format".
Definition msg_https : ustr := u "URL must use HTTPS".
Definition msg_domain : ustr := u "URL must be from Wikipedia (*.wikipedia.org)".
Definition msg_subdomain : ustr := u "Mobile and Commons Wikipedia URLs are not supported".
Definition msg_article_path : ustr := u "URL must be a Wikipedia article (/wiki/article_name)".
Definition msg_w : ustr := u "Access to /w/ paths is prohibited by robots.txt".
Definition msg_api : ustr := u "Access to /api/ paths is prohibited by robots.txt".
Definition msg_trap : ustr := u "Access to /trap/ paths is prohibited by robots.txt".
Definition msg_article_required : ustr := u "Article name is required".

(** [pattern.replace('^', '').replace(':', '')] *)
Definition pattern_name (p : ustr) : ustr := remove_char 58 p.

(** [f"Access to {pattern_name} pages is prohibited by Wikipedia's robots.txt"] *)
Definition msg_forbidden (p : ustr) : ustr :=
  u "Access to " ++ pattern_name p ++ u " pages is prohibited by Wikipedia's robots.txt".

Section Validate.

Variable nfkc : ustr -> ustr.
Variable ip_address : ustr -> option bool.

(** The checks from the scheme on, applied to the parse result. *)
Definition validate_parsed (parsed : ParseResult) : bool * ustr :=
  if negb (ueqb (pr_scheme parsed) (u "https")) then (false, msg_https)
  else if negb (endswith (u ".wikipedia.org") (pr_netloc parsed)) then (false, msg_domain)
  else if startswith (u "m.") (pr_netloc parsed)
          || startswith (u "commons.") (pr_netloc parsed) then (false, msg_subdomain)
  else if negb (startswith (u "/wiki/") (pr_path parsed)) then (false, msg_article_path)
  else if startswith (u "/w/") (pr_path parsed) then (false, msg_w)
  else if startswith (u "/api/") (pr_path parsed) then (false, msg_api)
  else if startswith (u "/trap/") (pr_path parsed) then (false, msg_trap)
  else
    let article_name := unquote (skipn 6 (pr_path parsed)) in
    match article_name with
    | [] => (false, msg_article_required)
    | _ =>
        match first_match forbidden_patterns article_name with
        | Some p => (false, msg_forbidden p)
        | None => (true, [])
        end
    end.

(** [validate_wikipedia_url(url)]; [None] is Python's [None]. *)
Definition validate_wikipedia_url (url : option ustr) : bool * ustr :=
  match url with
  | None => (false, msg_required)
  | Some [] => (false, msg_required)
  | Some url0 =>
      match py_strip url0 with
      | [] => (false, msg_required)
      | url1 =>
          match urlparse nfkc ip_address url1 with
          | None => (false, msg_invalid_format)
          | Some parsed => validate_parsed parsed
          end
      end
  end.

End Validate.

(** Rules 3 to 7 of [validate_wikipedia_url] all pass on [parsed]. *)
Definition passes_url_checks (parsed : ParseResult) : bool :=
  ueqb (pr_scheme parsed) (u "https")
  && endswith (u ".wikipedia.org") (pr_netloc parsed)
  && negb (startswith (u "m.") (pr_netloc parsed) || startswith (u "commons.") (pr_netloc parsed))
  && startswith (u "/wiki/") (pr_path parsed)
  && negb (startswith (u "/w/") (pr_path parsed))
  && negb (startswith (u "/api/") (pr_path parsed))
  && negb (startswith (u "/trap/") (pr_path parsed)).

(** The percent-decoded article name: [unquote(parsed.path[6:])]. *)
Definition article_name_of (parsed : ParseResult) : ustr :=
  unquote (skipn 6 (pr_path parsed)).

(** Library instances used only to evaluate the model on concrete URLs
    whose netloc is ASCII and has no brackets: [urlsplit] consults
    neither function on such a netloc. *)
Definition nfkc_ascii (s : ustr) : ustr := s.
Definition ip_address_none (s : ustr) : option bool := None.

Definition validate (s : string) : bool * ustr :=
  validate_wikipedia_url nfkc_ascii ip_address_none (Some (u s)).

Example validate_ex2 : fst (validate "https://en.wikipedia.org/wiki/User%3ATestUser") = false.
Proof. vm_compute. reflexivity. Qed.
Example validate_ex4 : validate "https://en.wikipedia.org/wiki/Test?action=edit" = (true, []).
Proof. vm_compute. reflexivity. Qed.
Example validate_ex6 : validate "https://en.wikipedia.org/w/index.php" = (false, msg_article_path).
Proof. vm_compute. reflexivity. Qed.

(** ** Parsed HTML (the BeautifulSoup tree)

    An element has a tag name, its single-valued attributes, its [class]
    list (BeautifulSoup splits [class] into a list) and its children; the
    text nodes are the strings [get_text] reads.  The whole document is an
    element named ["[document]"]. *)

Inductive node :=
| Text (s : ustr)
| Elem (name : ustr) (attrs : list (ustr * ustr)) (classes : list ustr)
       (children : list node).

Fixpoint assoc (k : ustr) (kvs : list (ustr * ustr)) : option ustr :=
  match kvs with
  | [] => None
  | (k', v) :: kvs' => if ueqb k k' then Some v else assoc k kvs'
  end.

Definition node_name (n : node) : ustr :=
  match n with Elem nm _ _ _ => nm | Text _ => [] end.

Definition node_classes (n : node) : list ustr :=
  match n with Elem _ _ cl _ => cl | Text _ => [] end.

(** [tag.get(k, "")] *)
Definition get_attr (k : ustr) (n : node) : ustr :=
  match n with
  | Elem _ ats _ _ => match assoc k ats with Some v => v | None => [] end
  | Text _ => []
  end.

Definition has_class (c : ustr) (n : node) : bool :=
  existsb (ueqb c) (node_classes n).

Definition is_named (nm : ustr) (n : node) : bool := ueqb (node_name n) nm.

(** The elements of the subtree at [n], [n] first, in document order, each
    with its ancestors (parent first). *)
Fixpoint preorder (anc : list node) (n : node) : list (node * list node) :=
  match n with
  | Text _ => []
  | Elem _ _ _ ch =>
      (n, anc) ::
      (fix go (l : list node) : list (node * list node) :=
         match l with
         | [] => []
         | c :: l' => preorder (n :: anc) c ++ go l'
         end) ch
  end.

(** The proper descendants of [n] ([find_all] and [find] search these). *)
Definition descendants (anc : list node) (n : node) : list (node * list node) :=
  tl (preorder anc n).

(** [Tag.find_parent(name)] given the ancestors. *)
Fixpoint find_parent (nm : ustr) (anc : list node) : option (node * list node) :=
  match anc with
  | [] => None
  | a :: anc' => if is_named nm a then Some (a, anc') else find_parent nm anc'
  end.

(** [get_text()]: the text nodes of the subtree, concatenated;
    [get_text(strip=True)] strips each and drops the empty ones. *)
Fixpoint all_strings (n : node) : list ustr :=
  match n with
  | Text s => [s]
  | Elem _ _ _ ch =>
      (fix go (l : list node) : list ustr :=
         match l with [] => [] | c :: l' => all_strings c ++ go l' end) ch
  end.

Definition get_text (n : node) : ustr := List.concat (all_strings n).

Definition get_text_strip (n : node) : ustr :=
  List.concat (filter (fun s => match s with [] => false | _ => true end)
                 (map py_strip (all_strings n))).

(** ** Heading-level resolver *)

(** [get_heading_level_from_tag] *)
Definition get_heading_level_from_tag (tag : node) : Z :=
  match node_name tag with
  | [104; d] => if (49 <=? d) && (d <=? 54) then d - 48 else 1
  | _ => 1
  end.

(** The code points with a decimal digit value ([str.isdecimal], [\d]):
    66 + 2 blocks of ten consecutive digits 0..9 (Unicode 15.0). *)
Definition decimal_zeros : list Z :=
  [48; 1632; 1776; 1984; 2406; 2534; 2662; 2790; 2918; 3046; 3174; 3302;
   3430; 3558; 3664; 3792; 3872; 4160; 4240; 6112; 6160; 6470; 6608; 6784;
   6800; 6992; 7088; 7232; 7248; 42528; 43216; 43264; 43472; 43504; 43600;
   44016; 65296; 66720; 68912; 69734; 69872; 69942; 70096; 70384; 70736;
   70864; 71248; 71360; 71472; 71904; 72016; 72784; 73040; 73120; 73552;
   92768; 92864; 93008; 120782; 120792; 120802; 120812; 120822; 123200;
   123632; 124144; 125264; 130032].

Fixpoint decimal_value_in (zs : list Z) (c : Z) : option Z :=
  match zs with
  | [] => None
  | z :: zs' => if (z <=? c) && (c <? z + 10) then Some (c - z)
                else decimal_value_in zs' c
  end.

Definition decimal_value (c : Z) : option Z := decimal_value_in decimal_zeros c.

Definition is_decimal (c : Z) : bool :=
  match decimal_value c with Some _ => true | None => false end.

(** The digits-and-underscores body of a Python integer literal: digits,
    single underscores between digits. [acc] is the value so far. *)
Fixpoint int_body (acc : Z) (s : ustr) : option Z :=
  match s with
  | [] => Some acc
  | 95 :: c :: s' =>
      match decimal_value c with
      | Some d => int_body (10 * acc + d) s'
      | None => None
      end
  | c :: s' =>
      match decimal_value c with
      | Some d => int_body (10 * acc + d) s'
      | None => None
      end
  end.

(** [sys.get_int_max_str_digits()] at its default: [int(s)] and [str(n)]
    raise [ValueError] beyond this many decimal digits. *)
Definition int_max_str_digits : Z := 4300.

(** [int(s)]; [None] when it raises [ValueError]: [s] is not a decimal
    integer literal, or its body has more than [int_max_str_digits]
    digits (underscores not counted, leading zeros counted). *)
Definition py_int (s : ustr) : option Z :=
  let t := py_strip s in
  let '(sign, body) :=
    match t with
    | 43 :: r => (1, r)
    | 45 :: r => (-1, r)
    | r => (1, r)
    end in
  match body with
  | c :: r =>
      if int_max_str_digits <? Z.of_nat (List.length (filter (fun x => negb (x =? 95)) body))
      then None
      else
      match decimal_value c with
      | Some d => option_map (fun v => sign * v) (int_body d r)
      | None => None
      end
  | [] => None
  end.

(** [class_name.split('-')[1]] for a class name starting with ["toclevel-"]. *)
Definition toclevel_field (class_name : ustr) : ustr :=
  fst (break_at (fun c => c =? 45) (skipn 9 class_name)).

Fixpoint level_from_classes (cls : list ustr) : option Z :=
  match cls with
  | [] => None
  | c :: cls' =>
      if startswith (u "toclevel-") c then
        match py_int (toclevel_field c) with
        | Some level => Some level
        | None => level_from_classes cls'
        end
      else level_from_classes cls'
  end.

Definition count_named (nm : ustr) (l : list node) : Z :=
  Z.of_nat (List.length (filter (is_named nm) l)).

(** The [for i in range(5)] walk up the parents: [anc] are the ancestors
    of [current]. *)
Fixpoint ul_walk (fuel : nat) (anc : list node) : Z :=
  match fuel with
  | O => 1
  | S fuel' =>
      match anc with
      | [] => 1
      | cur :: anc' =>
          if is_named (u "ul") cur then count_named (u "ul") anc' + 1
          else ul_walk fuel' anc'
      end
  end.

(** [get_heading_level_from_toc_item(link)], [anc] the ancestors of [link]. *)
Definition get_heading_level_from_toc_item (anc : list node) : Z :=
  let from_class :=
    match find_parent (u "li") anc with
    | Some (li, _) => level_from_classes (node_classes li)
    | None => None
    end in
  match from_class with
  | Some level => level
  | None => ul_walk 5 anc
  end.

(** ** TOC extraction ([scrape_wikipedia_toc] after the fetch) *)

Record TocEntry := {
  level : Z; title : ustr; anchor : ustr; href : ustr }.

Inductive ScrapeResult :=
| Success (url : ustr) (page_title : ustr) (toc : list TocEntry) (total_items : Z)
| Failure (error : ustr) (message : ustr).

Fixpoint collect {A B : Type} (f : A -> option B) (l : list A) : list B :=
  match l with
  | [] => []
  | x :: l' => match f x with Some y => y :: collect f l' | None => collect f l' end
  end.

(** [re.sub(r'^\d+(\.\d+)*\s*', '', text)]; [after_ordinal] runs once the
    leading [\d] has been read. *)
Fixpoint after_ordinal (s : ustr) : ustr :=
  match s with
  | [] => []
  | c :: s' =>
      if is_decimal c then after_ordinal s'
      else if c =? 46 then
        match s' with
        | d :: _ => if is_decimal d then after_ordinal s' else s
        | [] => s
        end
      else lstrip_by py_isspace s
  end.

Definition strip_ordinal (s : ustr) : ustr :=
  match s with
  | c :: s' => if is_decimal c then after_ordinal s' else s
  | [] => []
  end.

(** [re.sub(r'\s+', ' ', text)]; [in_ws]: the previous character was
    whitespace (already replaced). *)
Fixpoint collapse_go (in_ws : bool) (s : ustr) : ustr :=
  match s with
  | [] => []
  | c :: s' =>
      if py_isspace c then
        if in_ws then collapse_go true s' else 32 :: collapse_go true s'
      else c :: collapse_go false s'
  end.

Definition collapse_ws (s : ustr) : ustr := collapse_go false s.

(** [s.lower() == target] for a target made of lower-case ASCII letters,
    spaces and CJK characters: the only characters whose [lower()] is one
    such character are itself, its upper-case ASCII letter and, for [k],
    the Kelvin sign U+212A. *)
Fixpoint lower_is (s target : ustr) : bool :=
  match s, target with
  | [], [] => true
  | c :: s', t :: target' =>
      ((ascii_lower c =? t) || ((c =? 8490) && (t =? 107))) && lower_is s' target'
  | _, _ => false
  end.

Definition toc_heading_words : list ustr :=
  [ [30446; 27425] (* 目次 *); u "contents"; u "table of contents" ].

(** One iteration of the [for link in toc_links] loop: the entry it
    appends, if any.  [anc] are the ancestors of [link]. *)
Definition toc_item_of_link (link : node) (anc : list node) : option TocEntry :=
  let href0 := get_attr (u "href") link in
  if startswith (u "#") href0 then
    let lvl := get_heading_level_from_toc_item anc in
    let text0 :=
      match find (fun '(n, _) => is_named (u "span") n && has_class (u "toctext") n)
                 (descendants anc link) with
      | Some (text_elem, _) => get_text_strip text_elem
      | None => get_text_strip link
      end in
    let text1 := strip_ordinal text0 in
    let text := py_strip (collapse_ws text1) in
    if existsb (lower_is text) toc_heading_words
       || match text with [] => true | _ => false end
    then None
    else Some {| level := lvl; title := text; anchor := tl href0; href := href0 |}
  else None.

Definition heading_names : list ustr := map u ["h2"; "h3"; "h4"; "h5"; "h6"].

Definition is_heading (n : node) : bool := existsb (fun h => is_named h n) heading_names.

Definition is_editsection (n : node) : bool :=
  is_named (u "span") n && has_class (u "mw-editsection") n.

(** The subtree with its [span.mw-editsection] descendants removed
    ([edit_link.decompose()]). *)
Fixpoint remove_editsections (n : node) : node :=
  match n with
  | Text s => Text s
  | Elem nm ats cl ch =>
      Elem nm ats cl
        ((fix go (l : list node) : list node :=
            match l with
            | [] => []
            | c :: l' => if is_editsection c then go l' else remove_editsections c :: go l'
            end) ch)
  end.

(** A heading inside a [span.mw-editsection] of an enclosing heading has
    been decomposed by the time the loop reaches it: its contents are
    gone and it yields no entry. *)
Fixpoint inside_removed_editsection (anc : list node) : bool :=
  match anc with
  | [] => false
  | a :: anc' => (is_editsection a && existsb is_heading anc') || inside_removed_editsection anc'
  end.

Definition edit_marker : ustr := [91; 32232; 38598; 93]. (* [編集] *)

Section Extract.

(** [\w]: Unicode alphanumeric characters and ['_'] ([str.isalnum]). *)
Variable is_word : Z -> bool.

(** The character class [[\w぀-ゟ゠-ヿ一-龯]]. *)
Definition anchor_char (c : Z) : bool :=
  is_word c || in_range 12352 12447 c || in_range 12448 12543 c || in_range 19968 40879 c.

(** One iteration of the [for heading in headings] loop. *)
Definition heading_item (heading : node) (anc : list node) : option TocEntry :=
  if inside_removed_editsection anc then None else
  let text := collapse_ws (get_text_strip (remove_editsections heading)) in
  if match text with [] => false | _ => true end
     && negb (startswith edit_marker text)
     && negb (lower_is text [30446; 27425] || lower_is text (u "contents"))
  then
    let anchor_id :=
      match get_attr (u "id") heading with
      | [] => map (fun c => if anchor_char c then c else 95) text
      | a => a
      end in
    Some {| level := get_heading_level_from_tag heading; title := text;
            anchor := anchor_id; href := 35 :: anchor_id |}
  else None.

Definition find_title (all : list (node * list node)) : ustr :=
  let by_class := find (fun '(n, _) => is_named (u "h1") n && has_class (u "firstHeading") n) all in
  let by_id := find (fun '(n, _) => is_named (u "h1") n && ueqb (get_attr (u "id") n) (u "firstHeading")) all in
  match by_class with
  | Some (t, _) => py_strip (get_text t)
  | None => match by_id with
            | Some (t, _) => py_strip (get_text t)
            | None => u "Unknown"
            end
  end.

(** The primary path: the entries from [div#toc], if there is one. *)
Definition primary_items (all : list (node * list node)) : list TocEntry :=
  match find (fun '(n, _) => is_named (u "div") n && ueqb (get_attr (u "id") n) (u "toc")) all with
  | Some (toc_elem, anc) =>
      collect (fun '(l, a) => if is_named (u "a") l then toc_item_of_link l a else None)
              (descendants anc toc_elem)
  | None => []
  end.

(** The fallback path: the entries from the [h2]..[h6] headings. *)
Definition fallback_items (all : list (node * list node)) : list TocEntry :=
  collect (fun '(h, a) => if is_heading h then heading_item h a else None) all.

(** The extraction part of [scrape_wikipedia_toc], on the parsed [soup]. *)
Definition extract_toc (url : ustr) (soup : node) : ScrapeResult :=
  let all := descendants [] soup in
  let page_title := find_title all in
  let toc_items :=
    match primary_items all with
    | [] => fallback_items all
    | items => items
    end in
  Success url page_title toc_items (Z.of_nat (List.length toc_items)).

(** The outcome of [requests.get] and of parsing its content with lxml. *)
Inductive fetch_outcome :=
| FetchTimeout
| FetchFailed (diagnostic : ustr)
| ParseFailed (diagnostic : ustr)
| FetchOk (soup : node).

(** [scrape_wikipedia_toc(url)], given what fetching and parsing give. *)
Definition scrape_wikipedia_toc (fetched : fetch_outcome) (url : ustr) : ScrapeResult :=
  match fetched with
  | FetchTimeout => Failure (u "Request timeout") (u "Wikipedia page took too long to respond")
  | FetchFailed m => Failure (u "Failed to fetch Wikipedia page") m
  | ParseFailed m => Failure (u "Failed to parse Wikipedia content") m
  | FetchOk soup => extract_toc url soup
  end.

End Extract.

(** [\w] on ASCII text, used to evaluate the model on ASCII headings. *)
Definition is_word_ascii (c : Z) : bool := is_ascii_alpha c || is_ascii_digit c || (c =? 95).

Definition doc (children : list node) : node := Elem (u "[document]") [] [] children.
Definition el (nm : string) (ats : list (string * string)) (cls : list string) (ch : list node) : node :=
  Elem (u nm) (map (fun '(k, v) => (u k, u v)) ats) (map u cls) ch.
Definition txt (s : string) : node := Text (u s).



(** ** [lambda_handler] *)

(** The Python values the handler meets in the event and builds for the
    JSON body. *)
Inductive pyval :=
| PNone
| PBool (b : bool)
| PInt (z : Z)
| PStr (s : ustr)
| PList (l : list pyval)
| PDict (kvs : list (ustr * pyval)).

Definition truthy (v : pyval) : bool :=
  match v with
  | PNone => false
  | PBool b => b
  | PInt z => negb (z =? 0)
  | PStr s => match s with [] => false | _ => true end
  | PList l => match l with [] => false | _ => true end
  | PDict kvs => match kvs with [] => false | _ => true end
  end.

Definition type_name (v : pyval) : ustr :=
  match v with
  | PNone => u "NoneType" | PBool _ => u "bool" | PInt _ => u "int"
  | PStr _ => u "str" | PList _ => u "list" | PDict _ => u "dict"
  end.

(** The message of the [AttributeError] raised by [v.attr]. *)
Definition attribute_error (v : pyval) (attr : string) : ustr :=
  u "'" ++ type_name v ++ u "' object has no attribute '" ++ u attr ++ u "'".

Fixpoint dict_get (k : ustr) (kvs : list (ustr * pyval)) : option pyval :=
  match kvs with
  | [] => None
  | (k', v) :: kvs' => if ueqb k k' then Some v else dict_get k kvs'
  end.

Record response := {
  statusCode : Z;
  headers : list (ustr * ustr);
  body : pyval }.

Definition ps (s : string) : pyval := PStr (u s).

Definition json_headers : list (ustr * ustr) :=
  [ (u "Content-Type", u "application/json; charset=utf-8");
    (u "Access-Control-Allow-Origin", u "*") ].

Definition response_405 : response :=
  {| statusCode := 405;
     headers := [ (u "Content-Type", u "application/json");
                  (u "Access-Control-Allow-Origin", u "*") ];
     body := PDict [ (u "success", PBool false); (u "error", ps "Method not allowed");
                     (u "message", ps "Only GET method is supported") ] |}.

Definition response_missing_url : response :=
  {| statusCode := 400;
     headers := json_headers;
     body := PDict [ (u "success", PBool false); (u "error", ps "URL parameter is required");
                     (u "message", ps "Please provide a Wikipedia URL using ?url=<wikipedia_url>");
                     (u "example", ps "?url=https://ja.wikipedia.org/wiki/Amazon_Web_Services") ] |}.

Definition response_invalid_url (error_message url : ustr) : response :=
  {| statusCode := 400;
     headers := json_headers;
     body := PDict [ (u "success", PBool false); (u "error", ps "Invalid Wikipedia URL");
                     (u "message", PStr error_message); (u "provided_url", PStr url) ] |}.

Definition response_internal_error (m : ustr) : response :=
  {| statusCode := 500;
     headers := json_headers;
     body := PDict [ (u "success", PBool false); (u "error", ps "Internal server error");
                     (u "message", PStr m) ] |}.

Definition entry_to_py (e : TocEntry) : pyval :=
  PDict [ (u "level", PInt (level e)); (u "title", PStr (title e));
          (u "anchor", PStr (anchor e)); (u "href", PStr (href e)) ].

Definition result_to_py (r : ScrapeResult) : pyval :=
  match r with
  | Success url t toc n =>
      PDict [ (u "success", PBool true); (u "url", PStr url); (u "title", PStr t);
              (u "toc", PList (map entry_to_py toc)); (u "total_items", PInt n) ]
  | Failure e m =>
      PDict [ (u "success", PBool false); (u "error", PStr e); (u "message", PStr m) ]
  end.

Fixpoint is_infix (p s : ustr) : bool :=
  match s with
  | [] => match p with [] => true | _ => false end
  | _ :: s' => startswith p s || is_infix p s'
  end.

(** [status_code]; the [error] strings of [scrape_wikipedia_toc] are ASCII,
    so [.lower()] is [ascii_lower] on them. *)
Definition status_of (r : ScrapeResult) : Z :=
  match r with
  | Success _ _ _ _ => 200
  | Failure e _ => if is_infix (u "timeout") (map ascii_lower e) then 504 else 500
  end.

Definition response_scraped (r : ScrapeResult) : response :=
  {| statusCode := status_of r;
     headers := json_headers ++ [ (u "Cache-Control", u "public, max-age=300") ];
     body := result_to_py r |}.

Section Handler.

Variable nfkc : ustr -> ustr.
Variable ip_address : ustr -> option bool.
Variable is_word : Z -> bool.
(** What [requests.get] and the lxml parse give for a URL. *)
Variable fetch : ustr -> fetch_outcome.

(** [lambda_handler(event, context)]; a Python exception raised in the
    [try] block becomes [response_internal_error] with its message. *)
Definition lambda_handler (event : pyval) : response :=
  match event with
  | PDict ev =>
      let http_method :=
        match dict_get (u "httpMethod") ev with Some v => v | None => ps "GET" end in
      if negb (match http_method with PStr m => ueqb m (u "GET") | _ => false end)
      then response_405
      else
        let query_params :=
          match dict_get (u "queryStringParameters") ev with
          | Some v => if truthy v then v else PDict []
          | None => PDict []
          end in
        match query_params with
        | PDict q =>
            let url := match dict_get (u "url") q with Some v => v | None => PNone end in
            if negb (truthy url) then response_missing_url
            else
              match url with
              | PStr s =>
                  let '(is_valid, error_message) :=
                    validate_wikipedia_url nfkc ip_address (Some s) in
                  if negb is_valid then response_invalid_url error_message s
                  else response_scraped (scrape_wikipedia_toc is_word (fetch s) s)
              | other => response_internal_error (attribute_error other "strip")
              end
        | other => response_internal_error (attribute_error other "get")
        end
  | other => response_internal_error (attribute_error other "get")
  end.

End Handler.

(** ** Console output and JSON export *)

(** The decimal digits of [n >= 0]; [fuel] bounds the recursion. *)
Fixpoint digits_go (fuel : nat) (n : Z) : ustr :=
  match fuel with
  | O => []
  | S f => if n <? 10 then [48 + n] else digits_go f (n / 10) ++ [48 + n mod 10]
  end.

(** The decimal digits of [n >= 0], with [log2 n + 1] as the fuel. *)
Definition dec_digits (n : Z) : ustr := digits_go (S (Z.to_nat (Z.log2 n))) n.

(** [str(n)] for a Python [int]; [None] when it raises [ValueError]
    ([|n|] has more than [int_max_str_digits] decimal digits). *)
Definition py_str (n : Z) : option ustr :=
  let ds := dec_digits (Z.abs n) in
  if int_max_str_digits <? Z.of_nat (List.length ds) then None
  else Some (if n <? 0 then 45 :: ds else ds).

(** [PY_SSIZE_T_MAX] on a 64-bit build. *)
Definition py_ssize_t_max : Z := 2 ^ 63 - 1.

(** [s * n] for a Python string [s] and an [int] [n]; [None] when it
    raises [OverflowError]: [n] does not fit in a [Py_ssize_t], or the
    result would be longer than [PY_SSIZE_T_MAX]. Empty for [n <= 0].
    Running out of memory ([MemoryError]) is not modelled. *)
Definition py_repeat (s : ustr) (n : Z) : option ustr :=
  if (n <? - py_ssize_t_max - 1) || (py_ssize_t_max <? n) then None
  else if n <=? 0 then Some []
  else if py_ssize_t_max / n <? Z.of_nat (List.length s) then None
  else Some (List.concat (repeat s (Z.to_nat n))).

(** ["目次が見つかりませんでした。"] *)
Definition msg_no_toc : ustr :=
  [30446; 27425; 12364; 35211; 12388; 12363; 12426; 12414; 12379; 12435; 12391; 12375; 12383; 12290].

(** What a console function does: the lines it prints, in order, and the
    exception it raises after them, if any. *)
Definition output : Type := list ustr * option ustr.

Definition exc_overflow : ustr := u "OverflowError".
Definition exc_value : ustr := u "ValueError".

(** [print(l)], then the rest [k] of the function. *)
Definition print_line (l : ustr) (k : output) : output := (l :: fst k, snd k).

(** Evaluate an expression that may raise [e]: on a value go on with [k]. *)
Definition or_raise {A} (e : ustr) (o : option A) (k : A -> output) : output :=
  match o with
  | Some a => k a
  | None => ([], Some e)
  end.



(** [f"{i:2d}"]: [str(i)] right-aligned in a field of width 2; it raises
    [ValueError] where [str(i)] does. *)
Definition fmt_2d (i : Z) : option ustr :=
  option_map (fun s => repeat 32 (2 - List.length s) ++ s) (py_str i).

(** The body of the [for i, item in enumerate(toc_items, 1)] loop of
    [print_toc_detailed], from index [i] on, then [k]; [n] is
    [len(toc_items)]. The f-string evaluates [i], [indent], [level] and
    [title] in that order. *)
Fixpoint print_items_detailed (i n : Z) (items : list TocEntry) (k : output) : output :=
  match items with
  | [] => k
  | item :: rest =>
      or_raise exc_overflow (py_repeat (u "  ") (level item - 1)) (fun indent =>
      or_raise exc_value (fmt_2d i) (fun i_s =>
      or_raise exc_value (py_str (level item)) (fun level_s =>
      print_line (i_s ++ u ". " ++ indent ++ u "[H" ++ level_s ++ u "] " ++ title item)
      (print_line (u "     " ++ indent ++ u "    -> " ++ href item)
      ((if i <? n then print_line [] else fun k' => k')
      (print_items_detailed (i + 1) n rest k))))))
  end.

(** [print_toc_detailed(toc_items)]. *)
Definition print_toc_detailed (toc_items : list TocEntry) : output :=
  match toc_items with
  | [] => print_line msg_no_toc ([], None)
  | _ =>
      or_raise exc_overflow (py_repeat (u "=") 80) (fun r1 =>
      print_line r1
      (print_line [30446; 27425; 65288; 35443; 32048; 34920; 31034; 65289]
      (or_raise exc_overflow (py_repeat (u "=") 80) (fun r2 =>
      print_line r2
      (print_items_detailed 1 (Z.of_nat (List.length toc_items)) toc_items
      (or_raise exc_overflow (py_repeat (u "=") 80) (fun r3 =>
      print_line r3 ([], None))))))))
  end.

Section JsonExport.

Variable nfkc : ustr -> ustr.
Variable ip_address : ustr -> option bool.

(** The file name [export_to_json(result, filename)] passes to [open];
    [None] when [urlparse(result['url'])] raises [ValueError], which the
    function does not catch. *)
Definition export_filename (result : ScrapeResult) (filename : option ustr) : option ustr :=
  match filename with
  | Some ((_ :: _) as f) => Some f
  | _ =>
      match result with
      | Success ((_ :: _) as url) _ _ _ =>
          match urlparse nfkc ip_address url with
          | None => None
          | Some parsed => Some (unquote (skipn 6 (pr_path parsed)) ++ u "_toc.json")
          end
      | _ => Some (u "wikipedia_toc.json")
      end
  end.

End JsonExport.

(** * Evaluation on concrete inputs *)

Example validate_ex1 : validate "https://ja.wikipedia.org/wiki/Amazon_Web_Services" = (true, []).
Proof. vm_compute. reflexivity. Qed.

Example validate_ex3 : fst (validate "https://ja.wikipedia.org/wiki/%E5%88%A9%E7%94%A8%E8%80%85:TestUser") = false.
Proof. vm_compute. reflexivity. Qed.

Example validate_ex5 : fst (validate "https://en.wikipedia.org/wiki/SPECIAL:x") = false.
Proof. vm_compute. reflexivity. Qed.

Example validate_ex7 : validate "https://fr.wikipedia.org/wiki/Caf%C3%A9" = (true, []).
Proof. vm_compute. reflexivity. Qed.

Example extract_ex1 :
  extract_toc is_word_ascii (u "x")
    (doc [el "div" [("id", "toc")] []
            [el "ul" [] []
               [el "li" [] ["toclevel-1"] [el "a" [("href", "#A")] [] [txt "1 Alpha"]];
                el "li" [] ["toclevel-2"] [el "a" [("href", "#B")] [] [txt "1.1 Beta  gamma"]]]]])
  = Success (u "x") (u "Unknown")
      [ {| level := 1; title := u "Alpha"; anchor := u "A"; href := u "#A" |};
        {| level := 2; title := u "Beta gamma"; anchor := u "B"; href := u "#B" |} ] 2.
Proof. vm_compute. reflexivity. Qed.

Example extract_ex2 :
  extract_toc is_word_ascii (u "x")
    (doc [el "h2" [] [] [txt "One two"; el "span" [] ["mw-editsection"] [txt "[edit]"]];
          el "h3" [("id", "t")] [] [txt "Three"]])
  = Success (u "x") (u "Unknown")
      [ {| level := 2; title := u "One two"; anchor := u "One_two"; href := u "#One_two" |};
        {| level := 3; title := u "Three"; anchor := u "t"; href := u "#t" |} ] 2.
Proof. vm_compute. reflexivity. Qed.

(** * Lemmas on the string operations *)

Lemma ueqb_eq : forall a b, ueqb a b = true <-> a = b.
Proof.
  induction a as [|x a IH]; destruct b as [|y b]; simpl; try (split; congruence).
  rewrite andb_true_iff, Z.eqb_eq, IH. split; [intros [-> ->]; reflexivity | intros H; inversion H; auto].
Qed.

Lemma ueqb_refl : forall a, ueqb a a = true.
Proof. intros a. apply ueqb_eq. reflexivity. Qed.

(** [lstrip_by p s] drops a prefix of [p]-characters and stops at a
    character outside [p]. *)
Definition head_not (p : Z -> bool) (s : ustr) : Prop :=
  match s with [] => True | c :: _ => p c = false end.

Lemma lstrip_by_spec : forall p s,
  exists w, s = w ++ lstrip_by p s /\ Forall (fun x => p x = true) w
            /\ head_not p (lstrip_by p s).
Proof.
  intros p s. induction s as [|c s IH]; simpl.
  - exists []. simpl. auto.
  - destruct (p c) eqn:Hc.
    + destruct IH as [w [Hw [Hall Hhd]]]. exists (c :: w). simpl. rewrite <- Hw. auto.
    + exists []. simpl. rewrite Hc. auto.
Qed.

Lemma lstrip_by_id : forall p s, head_not p s -> lstrip_by p s = s.
Proof. intros p [|c s] H; simpl in *; [reflexivity | rewrite H; reflexivity]. Qed.

Lemma lstrip_by_all : forall p w s,
  Forall (fun x => p x = true) w -> lstrip_by p (w ++ s) = lstrip_by p s.
Proof.
  intros p w s H. induction H as [|x w Hx _ IH]; simpl; [reflexivity|]. rewrite Hx. exact IH.
Qed.

Lemma lstrip_by_app : forall p x y,
  lstrip_by p x <> [] -> lstrip_by p (x ++ y) = lstrip_by p x ++ y.
Proof.
  intros p x y. induction x as [|c x IH]; simpl; [congruence|].
  destruct (p c); auto.
Qed.

Lemma lstrip_by_idem : forall p s, lstrip_by p (lstrip_by p s) = lstrip_by p s.
Proof.
  intros p s. destruct (lstrip_by_spec p s) as [_ [_ [_ H]]]. apply lstrip_by_id, H.
Qed.

(** [py_strip s] is an infix of [s] with no whitespace at either end. *)
Lemma py_strip_spec : forall s,
  exists w1 w2, s = w1 ++ py_strip s ++ w2
    /\ Forall (fun x => py_isspace x = true) w1
    /\ Forall (fun x => py_isspace x = true) w2
    /\ head_not py_isspace (py_strip s)
    /\ head_not py_isspace (rev (py_strip s)).
Proof.
  intros s. unfold py_strip, rstrip_by.
  destruct (lstrip_by_spec py_isspace s) as [w1 [H1 [A1 Hh]]].
  set (l := lstrip_by py_isspace s) in *.
  destruct (lstrip_by_spec py_isspace (rev l)) as [w2 [H2 [A2 B2]]].
  set (r := lstrip_by py_isspace (rev l)) in *.
  exists w1, (rev w2). rewrite rev_involutive.
  assert (Hl : l = rev r ++ rev w2).
  { rewrite <- rev_app_distr, <- H2, rev_involutive. reflexivity. }
  repeat split.
  - rewrite H1 at 1. rewrite Hl. reflexivity.
  - exact A1.
  - apply Forall_rev. exact A2.
  - rewrite Hl in Hh. destruct (rev r) as [|c t]; simpl in *; [exact I | exact Hh].
  - exact B2.
Qed.

Lemma head_not_rev_id : forall p s,
  head_not p s -> head_not p (rev s) -> rstrip_by p (lstrip_by p s) = s.
Proof.
  intros p s H1 H2. unfold rstrip_by. rewrite (lstrip_by_id p s H1), (lstrip_by_id p _ H2).
  apply rev_involutive.
Qed.

Lemma py_strip_idem : forall s, py_strip (py_strip s) = py_strip s.
Proof.
  intros s. destruct (py_strip_spec s) as [_ [_ [_ [_ [_ [H1 H2]]]]]].
  unfold py_strip at 1. apply head_not_rev_id; assumption.
Qed.

(** * Validator: cases of the result *)

(** A reason string as the claims require it: non-empty, nothing to strip. *)
Definition reason_ok (m : ustr) : Prop := m <> [] /\ py_strip m = m.

Lemma reason_ok_const : forall m,
  ((match m with [] => false | _ => true end) && ueqb (py_strip m) m) = true -> reason_ok m.
Proof.
  intros m H. apply andb_true_iff in H as [H1 H2]. split.
  - destruct m; discriminate.
  - apply ueqb_eq, H2.
Qed.

Lemma reason_ok_forbidden : forall p, reason_ok (msg_forbidden p).
Proof.
  intros p. unfold msg_forbidden. split.
  - simpl. discriminate.
  - unfold py_strip. apply head_not_rev_id.
    + simpl. reflexivity.
    + rewrite !rev_app_distr. simpl. reflexivity.
Qed.

Lemma validate_parsed_cases : forall parsed,
  validate_parsed parsed = (true, [])
  \/ exists m, validate_parsed parsed = (false, m) /\ reason_ok m.
Proof.
  intros parsed. unfold validate_parsed.
  repeat match goal with
  | |- context [if ?b then _ else _] => destruct b
  end;
  try (right; eexists; split; [reflexivity | apply reason_ok_const; vm_compute; reflexivity]).
  (* the remaining goal: a non-empty article name *)
  destruct (first_match forbidden_patterns _) as [p|].
  - right. eexists. split; [reflexivity|]. apply reason_ok_forbidden.
  - left. reflexivity.
Qed.

Lemma validate_cases : forall nfkc ip url,
  validate_wikipedia_url nfkc ip url = (true, [])
  \/ exists m, validate_wikipedia_url nfkc ip url = (false, m) /\ reason_ok m.
Proof.
  intros nfkc ip url. unfold validate_wikipedia_url.
  destruct url as [[|c s]|];
    try (right; eexists; split; [reflexivity | apply reason_ok_const; vm_compute; reflexivity]).
  destruct (py_strip (c :: s)) as [|c' s'].
  - right; eexists; split; [reflexivity | apply reason_ok_const; vm_compute; reflexivity].
  - destruct (urlparse nfkc ip (c' :: s')) as [parsed|].
    + apply validate_parsed_cases.
    + right; eexists; split; [reflexivity | apply reason_ok_const; vm_compute; reflexivity].
Qed.

(** * Claims on the validator *)

(** C4: for every input (Python [None], empty and whitespace-only strings
    included) the reason is empty exactly when the URL is accepted: an
    accepted URL comes with [""], a rejected one with a non-empty reason
    that [strip()] leaves unchanged (no leading or trailing whitespace). *)
Theorem validate_reason_empty_iff_accepted : forall nfkc ip url,
  match validate_wikipedia_url nfkc ip url with
  | (true, reason) => reason = []
  | (false, reason) => reason_ok reason
  end.
Proof.
  intros nfkc ip url.
  destruct (validate_cases nfkc ip url) as [-> | [m [-> Hm]]]; auto.
Qed.

(** C9: for every non-null string [u], [validate_wikipedia_url(u)] equals
    [validate_wikipedia_url(u.strip())]: every rule sees the stripped
    string. *)
Theorem validate_strip_invariant : forall nfkc ip s,
  validate_wikipedia_url nfkc ip (Some s) = validate_wikipedia_url nfkc ip (Some (py_strip s)).
Proof.
  intros nfkc ip s. unfold validate_wikipedia_url.
  destruct s as [|c s].
  - reflexivity.
  - rewrite py_strip_idem. destruct (py_strip (c :: s)); reflexivity.
Qed.

Lemma first_match_some : forall pats s p,
  first_match pats s = Some p -> In p pats /\ match_prefix_ci p s = true.
Proof.
  induction pats as [|q pats IH]; simpl; intros s p H; [discriminate|].
  destruct (match_prefix_ci q s) eqn:E.
  - inversion H; subst. auto.
  - destruct (IH s p H). auto.
Qed.

Lemma first_match_none : forall pats s p,
  first_match pats s = None -> In p pats -> match_prefix_ci p s = false.
Proof.
  induction pats as [|q pats IH]; simpl; intros s p H Hin; [contradiction|].
  destruct (match_prefix_ci q s) eqn:E; [discriminate|].
  destruct Hin as [<- | Hin]; auto.
Qed.

Lemma validate_parsed_checked : forall parsed,
  passes_url_checks parsed = true ->
  validate_parsed parsed =
    match article_name_of parsed with
    | [] => (false, msg_article_required)
    | a => match first_match forbidden_patterns a with
           | Some p => (false, msg_forbidden p)
           | None => (true, [])
           end
    end.
Proof.
  intros parsed H. unfold passes_url_checks in H.
  repeat rewrite andb_true_iff in H. destruct H as [[[[[[H1 H2] H3] H4] H5] H6] H7].
  apply negb_true_iff in H3, H5, H6, H7.
  unfold validate_parsed. rewrite H1, H2, H3, H4, H5, H6, H7. cbn [negb].
  unfold article_name_of. destruct (unquote _); reflexivity.
Qed.

Lemma urlparse_empty : forall nfkc ip,
  urlparse nfkc ip [] =
  Some {| pr_scheme := []; pr_netloc := []; pr_path := []; pr_params := [];
          pr_query := []; pr_fragment := [] |}.
Proof. reflexivity. Qed.

Lemma first_match_first : forall pats s q,
  first_match pats s = Some q ->
  exists pre post, pats = pre ++ q :: post
    /\ Forall (fun r => match_prefix_ci r s = false) pre
    /\ match_prefix_ci q s = true.
Proof.
  induction pats as [|p ps IH]; intros s q H; [discriminate H|].
  cbn [first_match] in H. destruct (match_prefix_ci p s) eqn:E.
  - injection H as <-. exists [], ps. split; [reflexivity|]. split; [constructor | exact E].
  - destruct (IH s q H) as [pre [post [Ep [Hpre Hq]]]].
    exists (p :: pre), post. split; [rewrite Ep; reflexivity|].
    split; [constructor; assumption | exact Hq].
Qed.

Lemma match_prefix_ci_compat : forall a b s,
  match_prefix_ci a s = true -> match_prefix_ci b s = true -> fold_compat a b = true.
Proof.
  induction a as [|x a IH]; intros b s Ha Hb; [reflexivity|].
  destruct b as [|y b]; [reflexivity|].
  destruct s as [|z s]; [discriminate Ha|].
  cbn [match_prefix_ci] in Ha, Hb. apply andb_true_iff in Ha as [Hx Ha], Hb as [Hy Hb].
  apply Z.eqb_eq in Hx, Hy. cbn [fold_compat].
  rewrite Hx, Hy, Z.eqb_refl. exact (IH b s Ha Hb).
Qed.

Lemma absent_shortcuts_disjoint :
  forallb (fun sc => forallb (fun q => negb (fold_compat sc q)) forbidden_patterns)
    absent_shortcuts = true.
Proof. vm_compute. reflexivity. Qed.

Lemma absent_shortcut_no_match : forall sc s,
  In sc absent_shortcuts -> match_prefix_ci sc s = true ->
  first_match forbidden_patterns s = None.
Proof.
  intros sc s Hin Hm. destruct (first_match forbidden_patterns s) as [q|] eqn:F; [|reflexivity].
  destruct (first_match_some _ _ _ F) as [Hq Hmq].
  pose proof absent_shortcuts_disjoint as D. rewrite forallb_forall in D.
  specialize (D sc Hin). rewrite forallb_forall in D. specialize (D q Hq).
  rewrite (match_prefix_ci_compat _ _ _ Hm Hmq) in D. discriminate D.
Qed.

Lemma validate_checked_url : forall nfkc ip url parsed,
  urlparse nfkc ip (py_strip url) = Some parsed ->
  passes_url_checks parsed = true ->
  validate_wikipedia_url nfkc ip (Some url) = validate_parsed parsed.
Proof.
  intros nfkc ip url parsed Hparse Hchk. unfold validate_wikipedia_url.
  destruct url as [|c0 s0].
  { rewrite urlparse_empty in Hparse. inversion Hparse; subst. discriminate Hchk. }
  destruct (py_strip (c0 :: s0)) as [|c s] eqn:E.
  - rewrite urlparse_empty in Hparse. inversion Hparse; subst. discriminate Hchk.
  - rewrite Hparse. reflexivity.
Qed.

(** C1 (as the code has it): for a URL that passes rules 1 to 8, when the
    decoded article name starts, case-insensitively ([re.IGNORECASE]), with
    a prefix of the code's forbidden-namespace table, the URL is rejected
    with the reason ["Access to <name> pages is prohibited by Wikipedia's
    robots.txt"] for the first prefix of the table that matches (every
    prefix before it in the table does not match); when the name starts,
    case-insensitively, with [WP:] or one of the Japanese administrative
    shortcuts ([削除依頼], [削除の復帰依頼], [復帰依頼], [ブロック依頼],
    [投稿ブロック依頼], [管理者伝言板]), which the table lacks, the URL is
    accepted. *)
Theorem validate_forbidden_namespace_table : forall nfkc ip url parsed,
  urlparse nfkc ip (py_strip url) = Some parsed ->
  passes_url_checks parsed = true ->
  (forall p, In p forbidden_patterns ->
     match_prefix_ci p (article_name_of parsed) = true ->
     exists pre q post, forbidden_patterns = pre ++ q :: post
       /\ Forall (fun r => match_prefix_ci r (article_name_of parsed) = false) pre
       /\ match_prefix_ci q (article_name_of parsed) = true
       /\ validate_wikipedia_url nfkc ip (Some url) = (false, msg_forbidden q))
  /\ (forall sc, In sc absent_shortcuts ->
      match_prefix_ci sc (article_name_of parsed) = true ->
      validate_wikipedia_url nfkc ip (Some url) = (true, [])).
Proof.
  intros nfkc ip url parsed Hparse Hchk.
  rewrite (validate_checked_url nfkc ip url parsed Hparse Hchk), validate_parsed_checked by exact Hchk.
  split.
  - intros p Hin Hm.
    destruct (first_match forbidden_patterns (article_name_of parsed)) as [q|] eqn:F.
    + destruct (first_match_first _ _ _ F) as [pre [post [Ep [Hpre Hq]]]].
      exists pre, q, post. split; [exact Ep|]. split; [exact Hpre|]. split; [exact Hq|].
      destruct (article_name_of parsed); [vm_compute in F; discriminate F | rewrite F; reflexivity].
    + rewrite (first_match_none _ _ _ F Hin) in Hm. discriminate.
  - intros sc Hin Hm. pose proof (absent_shortcut_no_match sc _ Hin Hm) as F.
    destruct (article_name_of parsed); [|rewrite F; reflexivity].
    destruct sc as [|c sc']; [|discriminate Hm].
    simpl in Hin. repeat (destruct Hin as [Hin|Hin]; [discriminate Hin|]). destruct Hin.
Qed.

Lemma validate_forbidden_namespace_table_witness :
  validate_wikipedia_url nfkc_ascii ip_address_none
    (Some (u "https://en.wikipedia.org/wiki/special:Random")) = (false, msg_forbidden (u "Special:"))
  /\ validate_wikipedia_url nfkc_ascii ip_address_none
    (Some (u "https://en.wikipedia.org/wiki/wp:Sandbox")) = (true, []).
Proof.
  split.
  - destruct (proj1 (validate_forbidden_namespace_table nfkc_ascii ip_address_none
                 (u "https://en.wikipedia.org/wiki/special:Random")
                 (Build_ParseResult (u "https") (u "en.wikipedia.org") (u "/wiki/special:Random")
                    [] [] [])
                 ltac:(vm_compute; reflexivity) ltac:(vm_compute; reflexivity))
               (u "Special:") ltac:(simpl; left; reflexivity) ltac:(vm_compute; reflexivity))
      as [pre [q [post [Ep [Hpre [Hq V]]]]]].
    rewrite V. destruct pre as [|r pre].
    + injection Ep as <-. reflexivity.
    + inversion Hpre as [|? ? Hr _]; subst. injection Ep as Er _. subst r.
      vm_compute in Hr. discriminate Hr.
  - apply (proj2 (validate_forbidden_namespace_table nfkc_ascii ip_address_none
             (u "https://en.wikipedia.org/wiki/wp:Sandbox")
             (Build_ParseResult (u "https") (u "en.wikipedia.org") (u "/wiki/wp:Sandbox") [] [] [])
             ltac:(vm_compute; reflexivity) ltac:(vm_compute; reflexivity))
             (u "WP:")).
    + simpl. left. reflexivity.
    + vm_compute. reflexivity.
Defined.

(** C1 as stated fails: [WP:] and the Japanese administrative prefixes
    such as [削除依頼] are not in the code's table, so such articles are
    accepted. *)
Lemma validate_wp_shortcut_accepted :
  validate_wikipedia_url nfkc_ascii ip_address_none
    (Some (u "https://en.wikipedia.org/wiki/WP:TEST")) = (true, [])
  /\ validate_wikipedia_url nfkc_ascii ip_address_none
    (Some (u "https://ja.wikipedia.org/wiki/" ++ [21066; 38500; 20381; 38972] ++ u "/Example"))
     = (true, []).
Proof. split; vm_compute; reflexivity. Qed.

(** * Parsing article URLs *)

(** [s] has none of the characters [cs]. *)
Definition no_char_of (cs : list Z) (s : ustr) : bool :=
  forallb (fun c => negb (existsb (Z.eqb c) cs)) s.

Definition article_url (host a : ustr) : ustr := u "https://" ++ host ++ u "/wiki/" ++ a.

Lemma filter_forallb_id : forall (f : Z -> bool) l, forallb f l = true -> filter f l = l.
Proof.
  intros f l H. induction l as [|x l IH]; simpl in *; [reflexivity|].
  apply andb_true_iff in H as [H1 H2]. rewrite H1, IH; auto.
Qed.

Lemma clean_id : forall s, no_char_of [9; 13; 10] s = true ->
  remove_unsafe s = s.
Proof.
  intros s H. unfold remove_unsafe, remove_char.
  assert (H9 : forallb (fun x => negb (x =? 9)) s = true).
  { apply forallb_forall. intros x Hx. unfold no_char_of in H. rewrite forallb_forall in H.
    specialize (H x Hx). simpl in H. destruct (x =? 9); auto. }
  assert (H13 : forallb (fun x => negb (x =? 13)) s = true).
  { apply forallb_forall. intros x Hx. unfold no_char_of in H. rewrite forallb_forall in H.
    specialize (H x Hx). simpl in H. destruct (x =? 13); [rewrite orb_true_r in H|]; auto. }
  assert (H10 : forallb (fun x => negb (x =? 10)) s = true).
  { apply forallb_forall. intros x Hx. unfold no_char_of in H. rewrite forallb_forall in H.
    specialize (H x Hx). simpl in H. destruct (x =? 10); [rewrite !orb_true_r in H|]; auto. }
  rewrite (filter_forallb_id _ s H9), (filter_forallb_id _ s H13), (filter_forallb_id _ s H10).
  reflexivity.
Qed.

Lemma no_char_of_app : forall cs x y,
  no_char_of cs (x ++ y) = no_char_of cs x && no_char_of cs y.
Proof. intros. unfold no_char_of. apply forallb_app. Qed.

Lemma no_char_of_incl : forall cs cs' s,
  no_char_of cs s = true -> incl cs' cs -> no_char_of cs' s = true.
Proof.
  intros cs cs' s H Hi. unfold no_char_of in *. rewrite forallb_forall in *. intros c Hc.
  specialize (H c Hc). apply negb_true_iff. apply negb_true_iff in H.
  apply not_true_iff_false. intros E. apply existsb_exists in E as [x [Hx Hcx]].
  assert (E' : existsb (Z.eqb c) cs = true) by (apply existsb_exists; exists x; auto).
  congruence.
Qed.

Lemma no_char_of_contains : forall cs c s,
  no_char_of cs s = true -> In c cs -> contains c s = false.
Proof.
  intros cs c s H Hin. unfold contains. apply not_true_iff_false. intros Hc.
  apply existsb_exists in Hc as [x [Hx Hcx]]. apply Z.eqb_eq in Hcx; subst x.
  unfold no_char_of in H. rewrite forallb_forall in H. specialize (H c Hx).
  assert (E : existsb (Z.eqb c) cs = true) by (apply existsb_exists; exists c; split; auto; apply Z.eqb_refl).
  rewrite E in H. discriminate.
Qed.

Lemma split_first_none : forall c s, contains c s = false -> split_first c s = None.
Proof.
  intros c s H. induction s as [|x s IH]; simpl in *; [reflexivity|].
  apply orb_false_iff in H as [H1 H2]. rewrite Z.eqb_sym, H1, IH; auto.
Qed.

Lemma split_first_app_some : forall c x y a b,
  split_first c x = Some (a, b) -> split_first c (x ++ y) = Some (a, b ++ y).
Proof.
  intros c x. induction x as [|z x IH]; simpl; intros y a b H; [discriminate|].
  destruct (z =? c); [inversion H; reflexivity|].
  destruct (split_first c x) as [[a' b']|] eqn:E; [|discriminate]. injection H as <- <-.
  rewrite (IH y a' b' eq_refl). reflexivity.
Qed.

Lemma split_first_app_none : forall c x y,
  split_first c x = None ->
  split_first c (x ++ y) = match split_first c y with
                           | Some (a, b) => Some (x ++ a, b)
                           | None => None
                           end.
Proof.
  intros c x y. induction x as [|z x IH]; simpl; intros H.
  - destruct (split_first c y) as [[a b]|]; reflexivity.
  - destruct (z =? c); [discriminate|].
    destruct (split_first c x) as [[a' b']|]; [discriminate|]. rewrite IH by reflexivity.
    destruct (split_first c y) as [[a b]|]; reflexivity.
Qed.

Lemma break_at_app_none : forall p x y,
  forallb (fun c => negb (p c)) x = true ->
  break_at p (x ++ y) = (x ++ fst (break_at p y), snd (break_at p y)).
Proof.
  intros p x y H. induction x as [|z x IH]; simpl in *.
  - destruct (break_at p y); reflexivity.
  - apply andb_true_iff in H as [H1 H2]. apply negb_true_iff in H1. rewrite H1, IH by exact H2.
    reflexivity.
Qed.

Lemma host_no_delim : forall host,
  no_char_of [47; 63; 35; 9; 13; 10] host = true ->
  forallb (fun c => negb (is_netloc_delim c)) host = true.
Proof.
  intros host H. unfold no_char_of in H. rewrite forallb_forall in *. intros c Hc.
  specialize (H c Hc). simpl in H. unfold is_netloc_delim.
  destruct (c =? 47), (c =? 63), (c =? 35); simpl in *; auto; rewrite ?orb_true_r in H; discriminate.
Qed.

Lemma urlsplit_article_url : forall nfkc ip host a,
  no_char_of [47; 63; 35; 9; 13; 10] host = true ->
  no_char_of [63; 35; 9; 13; 10] a = true ->
  urlsplit nfkc ip (article_url host a) =
    if netloc_brackets_ok ip host && checknetloc nfkc host
    then Some {| sr_scheme := u "https"; sr_netloc := host; sr_path := u "/wiki/" ++ a;
                 sr_query := []; sr_fragment := [] |}
    else None.
Proof.
  intros nfkc ip host a Hh Ha.
  assert (Hclean : no_char_of [9; 13; 10] (article_url host a) = true).
  { unfold article_url. rewrite !no_char_of_app. apply andb_true_iff; split; [reflexivity|].
    apply andb_true_iff; split.
    - unfold no_char_of in *. rewrite forallb_forall in *. intros c Hc. specialize (Hh c Hc).
      simpl in *. destruct (c =? 9), (c =? 13), (c =? 10); simpl in *; rewrite ?orb_true_r in Hh; auto.
    - apply andb_true_iff; split; [reflexivity|].
      unfold no_char_of in *. rewrite forallb_forall in *. intros c Hc. specialize (Ha c Hc).
      simpl in *. destruct (c =? 9), (c =? 13), (c =? 10); simpl in *; rewrite ?orb_true_r in Ha; auto. }
  unfold urlsplit.
  rewrite (lstrip_by_id is_c0_or_space (article_url host a)) by reflexivity.
  rewrite clean_id by exact Hclean.
  unfold article_url. simpl.
  rewrite break_at_app_none by (apply host_no_delim; exact Hh). simpl.
  rewrite app_nil_r.
  rewrite (split_first_none 35 a) by (apply (no_char_of_contains _ _ _ Ha); simpl; auto).
  simpl.
  rewrite (split_first_none 63 a) by (apply (no_char_of_contains _ _ _ Ha); simpl; auto).
  destruct (netloc_brackets_ok ip host); simpl; [|reflexivity].
  destruct (checknetloc nfkc host); reflexivity.
Qed.

Lemma head_not_rev_app : forall p x y,
  head_not p (rev y) -> head_not p (rev x) -> head_not p (rev (x ++ y)).
Proof.
  intros p x y Hy Hx. rewrite rev_app_distr. destruct (rev y); simpl in *; auto.
Qed.

Lemma py_strip_article_url : forall host a,
  head_not py_isspace (rev a) -> py_strip (article_url host a) = article_url host a.
Proof.
  intros host a Ha. unfold py_strip. apply head_not_rev_id; [reflexivity|].
  replace (article_url host a) with ((u "https://" ++ host ++ u "/wiki/") ++ a)
    by (unfold article_url; rewrite <- !app_assoc; reflexivity).
  apply head_not_rev_app; [exact Ha|].
  rewrite !rev_app_distr. reflexivity.
Qed.

Lemma urlparse_article_url : forall nfkc ip host a,
  no_char_of [47; 63; 35; 9; 13; 10] host = true ->
  no_char_of [63; 35; 59; 9; 13; 10] a = true ->
  urlparse nfkc ip (article_url host a) =
    if netloc_brackets_ok ip host && checknetloc nfkc host
    then Some {| pr_scheme := u "https"; pr_netloc := host; pr_path := u "/wiki/" ++ a;
                 pr_params := []; pr_query := []; pr_fragment := [] |}
    else None.
Proof.
  intros nfkc ip host a Hh Ha.
  assert (Ha' : no_char_of [63; 35; 9; 13; 10] a = true)
    by (apply (no_char_of_incl _ _ _ Ha); intros x Hx; simpl in *; tauto).
  assert (H59 : existsb (Z.eqb 59) a = false).
  { apply (no_char_of_contains _ 59 a Ha). simpl; auto. }
  unfold urlparse. rewrite urlsplit_article_url by assumption.
  destruct (netloc_brackets_ok ip host && checknetloc nfkc host); [|reflexivity].
  simpl. unfold contains. simpl. rewrite H59. reflexivity.
Qed.

Lemma validate_article_url : forall nfkc ip host a,
  no_char_of [47; 63; 35; 9; 13; 10] host = true ->
  no_char_of [63; 35; 59; 9; 13; 10] a = true ->
  head_not py_isspace (rev a) ->
  validate_wikipedia_url nfkc ip (Some (article_url host a)) =
    if netloc_brackets_ok ip host && checknetloc nfkc host
    then validate_parsed {| pr_scheme := u "https"; pr_netloc := host; pr_path := u "/wiki/" ++ a;
                            pr_params := []; pr_query := []; pr_fragment := [] |}
    else (false, msg_invalid_format).
Proof.
  intros nfkc ip host a Hh Ha Hr.
  assert (E : validate_wikipedia_url nfkc ip (Some (article_url host a)) =
              match urlparse nfkc ip (article_url host a) with
              | None => (false, msg_invalid_format)
              | Some parsed => validate_parsed parsed
              end).
  { unfold validate_wikipedia_url. rewrite py_strip_article_url by exact Hr. reflexivity. }
  rewrite E, urlparse_article_url by assumption.
  destruct (netloc_brackets_ok ip host && checknetloc nfkc host); reflexivity.
Qed.

(** C3: percent-encoding in the article name does not change the verdict.
    For an article URL [https://<host>/wiki/<a>] (host without a path,
    query or fragment delimiter; article without ['?'], ['#'], [';'] and
    not ending in whitespace), two article spellings with the same
    percent-decoding, such as [User:TestUser] and [User%3ATestUser], get
    the same [(accepted, reason)] pair, since the article name is decoded
    before the forbidden prefixes are matched. *)
Theorem validate_percent_encoding_invariant : forall nfkc ip host a1 a2,
  no_char_of [47; 63; 35; 9; 13; 10] host = true ->
  no_char_of [63; 35; 59; 9; 13; 10] a1 = true ->
  no_char_of [63; 35; 59; 9; 13; 10] a2 = true ->
  head_not py_isspace (rev a1) ->
  head_not py_isspace (rev a2) ->
  unquote a1 = unquote a2 ->
  validate_wikipedia_url nfkc ip (Some (article_url host a1)) =
  validate_wikipedia_url nfkc ip (Some (article_url host a2)).
Proof.
  intros nfkc ip host a1 a2 Hh H1 H2 R1 R2 Hu.
  rewrite (validate_article_url nfkc ip host a1), (validate_article_url nfkc ip host a2)
    by assumption.
  destruct (netloc_brackets_ok ip host && checknetloc nfkc host); [|reflexivity].
  unfold validate_parsed. cbn [pr_scheme pr_netloc pr_path].
  change (skipn 6 (u "/wiki/" ++ a1)) with a1.
  change (skipn 6 (u "/wiki/" ++ a2)) with a2.
  rewrite Hu. reflexivity.
Qed.

Lemma validate_percent_encoding_invariant_witness :
  validate_wikipedia_url nfkc_ascii ip_address_none
    (Some (article_url (u "en.wikipedia.org") (u "User:TestUser"))) =
  validate_wikipedia_url nfkc_ascii ip_address_none
    (Some (article_url (u "en.wikipedia.org") (u "User%3ATestUser")))
  /\ fst (validate_wikipedia_url nfkc_ascii ip_address_none
           (Some (article_url (u "en.wikipedia.org") (u "User:TestUser")))) = false.
Proof.
  split.
  - apply validate_percent_encoding_invariant; vm_compute; reflexivity.
  - vm_compute. reflexivity.
Defined.

(** * Responses of the handler *)

Ltac destruct_matches :=
  repeat match goal with
         | |- context [match ?x with _ => _ end] => destruct x
         end.

(** Every response of [lambda_handler] is one of its five kinds. *)
Lemma lambda_handler_cases : forall nfkc ip is_word fetch ev,
  let r := lambda_handler nfkc ip is_word fetch ev in
  r = response_405 \/ r = response_missing_url
  \/ (exists m s, r = response_invalid_url m s)
  \/ (exists m, r = response_internal_error m)
  \/ (exists res, r = response_scraped res).
Proof.
  intros. subst r. unfold lambda_handler. destruct_matches; eauto 10.
Qed.

Lemma status_of_ne_405 : forall r, status_of r <> 405.
Proof. intros [] ; simpl; [discriminate|]. destruct (is_infix _ _); discriminate. Qed.

(** [http_method == 'GET'] as the handler tests it. *)
Definition method_is_get (ev : list (ustr * pyval)) : bool :=
  match match dict_get (u "httpMethod") ev with Some v => v | None => ps "GET" end with
  | PStr m => ueqb m (u "GET")
  | _ => false
  end.

Lemma lambda_handler_method : forall nfkc ip is_word fetch ev,
  method_is_get ev = false -> lambda_handler nfkc ip is_word fetch (PDict ev) = response_405.
Proof.
  intros nfkc ip is_word fetch ev H. unfold lambda_handler. unfold method_is_get in H.
  rewrite H. reflexivity.
Qed.

Lemma lambda_handler_get_not_405 : forall nfkc ip is_word fetch ev,
  method_is_get ev = true -> statusCode (lambda_handler nfkc ip is_word fetch (PDict ev)) <> 405.
Proof.
  intros nfkc ip is_word fetch ev H. unfold lambda_handler. unfold method_is_get in H.
  rewrite H. cbn [negb]. destruct_matches; simpl; try discriminate; apply status_of_ne_405.
Qed.

(** [response["headers"][k]] *)
Definition header_value (k : ustr) (r : response) : option ustr :=
  match find (fun kv => ueqb (fst kv) k) (headers r) with
  | Some kv => Some (snd kv)
  | None => None
  end.

(** C7 (divergence): every response carries
    [Access-Control-Allow-Origin: *], and every response except the 405
    one carries [Content-Type: application/json; charset=utf-8]; the 405
    response, returned for instance for the event
    [{"httpMethod": "POST"}], carries [Content-Type: application/json]
    without the charset. *)
Theorem lambda_handler_content_type : forall nfkc ip is_word fetch,
  (forall ev,
     let r := lambda_handler nfkc ip is_word fetch ev in
     header_value (u "Access-Control-Allow-Origin") r = Some (u "*")
     /\ header_value (u "Content-Type") r =
        Some (if statusCode r =? 405 then u "application/json"
              else u "application/json; charset=utf-8"))
  /\ header_value (u "Content-Type")
       (lambda_handler nfkc ip is_word fetch (PDict [(u "httpMethod", ps "POST")]))
     = Some (u "application/json").
Proof.
  intros nfkc ip is_word fetch. split; [|reflexivity].
  intros ev r.
  destruct (lambda_handler_cases nfkc ip is_word fetch ev)
    as [E|[E|[[m [s E]]|[[m E]|[res E]]]]]; subst r; rewrite E; try (split; reflexivity).
  unfold response_scraped, header_value. cbn [statusCode headers].
  pose proof (status_of_ne_405 res) as Hs. apply Z.eqb_neq in Hs.
  rewrite Hs. split; reflexivity.
Qed.

(** C10: an event without an [httpMethod] field is handled exactly as
    the same event with [httpMethod = 'GET'], and the handler answers 405
    exactly when [httpMethod] is present and is not the string ['GET']. *)
Theorem lambda_handler_default_get : forall nfkc ip is_word fetch ev,
  (dict_get (u "httpMethod") ev = None ->
   lambda_handler nfkc ip is_word fetch (PDict ev) =
   lambda_handler nfkc ip is_word fetch (PDict ((u "httpMethod", ps "GET") :: ev)))
  /\ (statusCode (lambda_handler nfkc ip is_word fetch (PDict ev)) = 405 <->
      exists m, dict_get (u "httpMethod") ev = Some m /\ m <> ps "GET").
Proof.
  intros nfkc ip is_word fetch ev. split.
  - intros H. unfold lambda_handler. rewrite H. simpl. reflexivity.
  - split.
    + intros Hs. destruct (method_is_get ev) eqn:G.
      * exfalso. exact (lambda_handler_get_not_405 nfkc ip is_word fetch ev G Hs).
      * unfold method_is_get in G. destruct (dict_get (u "httpMethod") ev) as [m|].
        -- exists m. split; [reflexivity|]. intros ->. discriminate G.
        -- discriminate G.
    + intros [m [Hm Hne]].
      rewrite lambda_handler_method; [reflexivity|].
      unfold method_is_get. rewrite Hm.
      destruct m as [| | |s| |]; try reflexivity.
      destruct (ueqb s (u "GET")) eqn:E; [|reflexivity].
      apply ueqb_eq in E. subst s. exfalso. apply Hne. reflexivity.
Qed.

(** * TOC extraction *)

(** A TOC [div#toc] holding one link [#x] inside [li] elements with
    the classes [cls], inside [n] nested [ul] elements. *)
Fixpoint nest_ul (n : nat) (inner : node) : node :=
  match n with
  | O => inner
  | S n' => el "ul" [] [] [nest_ul n' inner]
  end.

Definition toc_doc (n : nat) (cls : list string) : node :=
  doc [el "div" [("id", "toc")] []
         [nest_ul n (el "li" [] cls [el "a" [("href", "#x")] [] [txt "X"]])]].

Definition entry_x (lvl : Z) : TocEntry :=
  {| level := lvl; title := u "X"; anchor := u "x"; href := u "#x" |}.

(** C2 (divergence): the level taken from a [toclevel-N] class is [N]
    itself, with no clamping to 1..6, and the [ul] nesting count has no
    upper bound either: [toclevel-7] gives an entry of level 7,
    [toclevel-0] one of level 0, and a link inside seven nested [ul]
    elements (no class) one of level 7. *)
Theorem toc_item_level_out_of_range : forall is_word,
  extract_toc is_word (u "x") (toc_doc 1 ["toclevel-7"]) = Success (u "x") (u "Unknown") [entry_x 7] 1
  /\ extract_toc is_word (u "x") (toc_doc 1 ["toclevel-0"]) = Success (u "x") (u "Unknown") [entry_x 0] 1
  /\ extract_toc is_word (u "x") (toc_doc 7 []) = Success (u "x") (u "Unknown") [entry_x 7] 1.
Proof. intros is_word. vm_compute. repeat split. Qed.

(** A page with a title and a paragraph, without TOC or section headings. *)
Definition plain_doc : node :=
  doc [el "h1" [("id", "firstHeading")] [] [txt " Page "];
       el "div" [("id", "content")] [] [el "p" [] [] [txt "No sections."]]].

(** [soup.find('div', {'id': 'toc'})] finds something. *)
Definition has_toc_div (soup : node) : bool :=
  existsb (fun '(n, _) => is_named (u "div") n && ueqb (get_attr (u "id") n) (u "toc"))
          (descendants [] soup).

(** [soup.find_all(['h2', ..., 'h6'])] finds something. *)
Definition has_heading (soup : node) : bool :=
  existsb (fun '(n, _) => is_heading n) (descendants [] soup).

Lemma find_existsb_false : forall {A} (f : A -> bool) l, existsb f l = false -> find f l = None.
Proof.
  intros A f l H. induction l as [|x l IH]; simpl in *; [reflexivity|].
  apply orb_false_iff in H as [H1 H2]. rewrite H1. auto.
Qed.

Lemma collect_none : forall {A B} (f : A -> option B) l,
  (forall x, In x l -> f x = None) -> collect f l = [].
Proof.
  intros A B f l H. induction l as [|x l IH]; simpl; [reflexivity|].
  rewrite (H x (or_introl eq_refl)). apply IH. intros y Hy. apply H. right. exact Hy.
Qed.

(** C6: a document with no [div#toc] and no [h2]..[h6] heading is a
    success with an empty TOC and [total_items = 0]. *)
Theorem scrape_no_toc_no_headings : forall is_word url soup,
  has_toc_div soup = false ->
  has_heading soup = false ->
  scrape_wikipedia_toc is_word (FetchOk soup) url
  = Success url (find_title (descendants [] soup)) [] 0.
Proof.
  intros is_word url soup Ht Hh. simpl. unfold extract_toc.
  assert (P : primary_items (descendants [] soup) = []).
  { unfold primary_items. unfold has_toc_div in Ht. rewrite (find_existsb_false _ _ Ht). reflexivity. }
  assert (F : fallback_items is_word (descendants [] soup) = []).
  { unfold fallback_items. apply collect_none. intros [n a] Hin. unfold has_heading in Hh.
    assert (E : is_heading n = false).
    { destruct (is_heading n) eqn:E; [|reflexivity].
      assert (X : existsb (fun '(n, _) => is_heading n) (descendants [] soup) = true)
        by (apply existsb_exists; exists (n, a); auto).
      congruence. }
    rewrite E. reflexivity. }
  rewrite P, F. reflexivity.
Qed.

Lemma scrape_no_toc_no_headings_witness :
  scrape_wikipedia_toc is_word_ascii (FetchOk plain_doc) (u "x")
  = Success (u "x") (find_title (descendants [] plain_doc)) [] 0.
Proof.
  apply scrape_no_toc_no_headings; vm_compute; reflexivity.
Defined.

(** ** Titles and links of the entries *)

(** The toc list of a result. *)
Definition result_toc (r : ScrapeResult) : list TocEntry :=
  match r with Success _ _ toc _ => toc | Failure _ _ => [] end.

(** Every whitespace character of [s] is a space [' '] that neither
    follows another whitespace character nor, when [prev_ws], starts [s]. *)
Fixpoint single_spaces (prev_ws : bool) (s : ustr) : bool :=
  match s with
  | [] => true
  | c :: s' =>
      if py_isspace c then (c =? 32) && negb prev_ws && single_spaces true s'
      else single_spaces false s'
  end.

(** A non-empty title whose whitespace is single spaces between
    non-whitespace characters. *)
Definition collapsed_title (t : ustr) : bool :=
  match rev t with
  | [] => false
  | c :: _ => negb (py_isspace c) && single_spaces true t
  end.

Lemma single_spaces_collapse : forall b s, single_spaces b (collapse_go b s) = true.
Proof.
  intros b s. revert b. induction s as [|c s IH]; intros b; simpl; [reflexivity|].
  destruct (py_isspace c) eqn:Hc.
  - destruct b; [apply IH|]. simpl. apply IH.
  - simpl. rewrite Hc. apply IH.
Qed.

Lemma single_spaces_app_l : forall b x y, single_spaces b (x ++ y) = true -> single_spaces b x = true.
Proof.
  intros b x. revert b. induction x as [|c x IH]; intros b y H; simpl in *; [reflexivity|].
  destruct (py_isspace c).
  - apply andb_true_iff in H as [H1 H2]. rewrite H1. simpl. eapply IH; exact H2.
  - eapply IH; exact H.
Qed.

Lemma single_spaces_app_r : forall b x y,
  single_spaces b (x ++ y) = true -> exists b', single_spaces b' y = true.
Proof.
  intros b x. revert b. induction x as [|c x IH]; intros b y H; simpl in *; [eauto|].
  destruct (py_isspace c).
  - apply andb_true_iff in H as [_ H2]. eapply IH; exact H2.
  - eapply IH; exact H.
Qed.

Lemma single_spaces_head : forall b b' s,
  head_not py_isspace s -> single_spaces b s = single_spaces b' s.
Proof. intros b b' [|c s] H; simpl in *; [reflexivity|]. rewrite H. reflexivity. Qed.

Lemma collapse_go_snoc : forall b x c,
  py_isspace c = false -> collapse_go b (x ++ [c]) = collapse_go b x ++ [c].
Proof.
  intros b x c Hc. revert b. induction x as [|d x IH]; intros b; simpl.
  - rewrite Hc. reflexivity.
  - destruct (py_isspace d); [destruct b|]; simpl; rewrite IH; reflexivity.
Qed.

Lemma head_not_concat : forall p L, Forall (head_not p) L -> head_not p (List.concat L).
Proof.
  intros p L H. induction H as [|s L Hs _ IH]; simpl; [exact I|].
  destruct s as [|c s]; simpl in *; [exact IH | exact Hs].
Qed.

Lemma head_not_rev_concat : forall p L,
  Forall (fun s => head_not p (rev s)) L -> head_not p (rev (List.concat L)).
Proof.
  intros p L H. induction H as [|s L Hs _ IH]; simpl; [exact I|].
  apply head_not_rev_app; assumption.
Qed.

Lemma get_text_strip_ends : forall n,
  head_not py_isspace (get_text_strip n) /\ head_not py_isspace (rev (get_text_strip n)).
Proof.
  intros n. unfold get_text_strip. split.
  - apply head_not_concat. apply Forall_forall. intros s Hs.
    apply filter_In in Hs as [Hs _]. apply in_map_iff in Hs as [x [<- _]].
    destruct (py_strip_spec x) as [_ [_ [_ [_ [_ [H _]]]]]]. exact H.
  - apply head_not_rev_concat. apply Forall_forall. intros s Hs.
    apply filter_In in Hs as [Hs _]. apply in_map_iff in Hs as [x [<- _]].
    destruct (py_strip_spec x) as [_ [_ [_ [_ [_ [_ H]]]]]]. exact H.
Qed.

(** A string with no whitespace at either end keeps its ends through
    [collapse_ws] and comes out collapsed. *)
Lemma collapse_ws_title : forall g,
  g <> [] -> head_not py_isspace g -> head_not py_isspace (rev g) ->
  collapsed_title (collapse_ws g) = true.
Proof.
  intros g Hne H1 H2. unfold collapsed_title, collapse_ws.
  destruct (rev g) as [|d r] eqn:Er.
  - exfalso. apply Hne. rewrite <- (rev_involutive g), Er. reflexivity.
  - assert (Eg : g = rev r ++ [d]) by (rewrite <- (rev_involutive g), Er; reflexivity).
    simpl in H2. rewrite Eg at 1. rewrite collapse_go_snoc by exact H2.
    rewrite rev_app_distr. simpl. rewrite H2. simpl.
    destruct g as [|c g']; [congruence|]. simpl in H1 |- *. rewrite H1.
    simpl. rewrite H1. apply single_spaces_collapse.
Qed.

(** The result of [str.strip] on a collapsed string is collapsed. *)
Lemma strip_collapse_title : forall s,
  py_strip (collapse_ws s) <> [] -> collapsed_title (py_strip (collapse_ws s)) = true.
Proof.
  intros s Hne.
  destruct (py_strip_spec (collapse_ws s)) as [w1 [w2 [E [_ [_ [H1 H2]]]]]].
  set (m := py_strip (collapse_ws s)) in *.
  assert (S : single_spaces false (w1 ++ m ++ w2) = true)
    by (rewrite <- E; apply single_spaces_collapse).
  apply single_spaces_app_r in S as [b' S]. apply single_spaces_app_l in S.
  unfold collapsed_title. destruct (rev m) as [|d r] eqn:Er.
  - exfalso. apply Hne. rewrite <- (rev_involutive m), Er. reflexivity.
  - simpl in H2. rewrite H2. simpl. rewrite (single_spaces_head true b' m H1). exact S.
Qed.

Lemma in_collect : forall {A B} (f : A -> option B) l y,
  In y (collect f l) -> exists x, In x l /\ f x = Some y.
Proof.
  intros A B f l y. induction l as [|x l IH]; simpl; [tauto|].
  destruct (f x) eqn:Hf; simpl.
  - intros [<- | Hy]; [eauto|]. destruct (IH Hy) as [x' [? ?]]. eauto.
  - intros Hy. destruct (IH Hy) as [x' [? ?]]. eauto.
Qed.

Lemma startswith_hash : forall s, startswith (u "#") s = true -> s = 35 :: tl s.
Proof.
  intros [|c s] H; [discriminate|]. change (u "#") with [35] in H. cbn [startswith] in H.
  apply andb_true_iff in H as [H _]. apply Z.eqb_eq in H. subst c. reflexivity.
Qed.

Lemma nonempty_of_test : forall b (x : ustr),
  b || match x with [] => true | _ :: _ => false end = false -> x <> [].
Proof. intros b [|c x] H; [rewrite orb_true_r in H; discriminate | discriminate]. Qed.

Lemma toc_item_of_link_ok : forall link anc e,
  toc_item_of_link link anc = Some e ->
  collapsed_title (title e) = true /\ href e = 35 :: anchor e.
Proof.
  intros link anc e H. unfold toc_item_of_link in H. cbv zeta in H.
  destruct (startswith (u "#") (get_attr (u "href") link)) eqn:Hs; [|discriminate].
  match type of H with
  | (if ?b then _ else _) = _ => destruct b eqn:Hb; [discriminate|]
  end.
  injection H as <-. cbn [title href anchor]. split.
  - apply strip_collapse_title. eapply nonempty_of_test. exact Hb.
  - apply startswith_hash. exact Hs.
Qed.

Lemma heading_item_ok : forall is_word h anc e,
  heading_item is_word h anc = Some e ->
  collapsed_title (title e) = true /\ href e = 35 :: anchor e.
Proof.
  intros is_word h anc e H. unfold heading_item in H. cbv zeta in H.
  destruct (inside_removed_editsection anc); [discriminate|].
  match type of H with
  | (if ?b then _ else _) = _ => destruct b eqn:Hb; [|discriminate]
  end.
  injection H as <-. simpl. split; [|reflexivity].
  destruct (get_text_strip_ends (remove_editsections h)) as [H1 H2].
  apply collapse_ws_title; [|exact H1|exact H2].
  intros E. rewrite E in Hb. discriminate.
Qed.

(** C5 (amended): every entry of the extracted TOC, from [div#toc] or
    from the [h2]..[h6] headings, has a non-empty title in which each
    whitespace character is a single space between non-whitespace
    characters, and its [href] is ['#'] followed by its [anchor]. *)
Theorem extract_toc_entries_ok : forall is_word url soup e,
  In e (result_toc (extract_toc is_word url soup)) ->
  collapsed_title (title e) = true /\ href e = 35 :: anchor e.
Proof.
  intros is_word url soup e H. unfold extract_toc in H. cbn [result_toc] in H.
  destruct (primary_items (descendants [] soup)) as [|p ps'] eqn:P.
  - unfold fallback_items in H. apply in_collect in H as [[h a] [_ Hh]].
    destruct (is_heading h); [|discriminate]. eapply heading_item_ok. exact Hh.
  - rewrite <- P in H. unfold primary_items in H.
    destruct (find _ (descendants [] soup)) as [[t anc]|]; [|contradiction].
    apply in_collect in H as [[l a] [_ Hl]].
    destruct (is_named (u "a") l); [|discriminate]. eapply toc_item_of_link_ok. exact Hl.
Qed.

Lemma extract_toc_entries_ok_witness :
  collapsed_title (u "Beta gamma") = true /\ u "#B" = 35 :: u "B".
Proof.
  exact (extract_toc_entries_ok is_word_ascii (u "x")
           (doc [el "div" [("id", "toc")] []
                   [el "ul" [] []
                      [el "li" [] ["toclevel-1"] [el "a" [("href", "#A")] [] [txt "1 Alpha"]];
                       el "li" [] ["toclevel-2"] [el "a" [("href", "#B")] [] [txt "1.1 Beta  gamma"]]]]])
           {| level := 2; title := u "Beta gamma"; anchor := u "B"; href := u "#B" |}
           ltac:(vm_compute; right; left; reflexivity)).
Defined.

(** C5 (counterexample): leading ordinal numbering survives in titles.
    The heading path does not remove it ([<h2 id="x">1 Foo</h2>] gives the
    title [1 Foo]), and the TOC path removes only the first ordinal
    ([1 2 Foo] gives [2 Foo]). *)
Lemma extract_toc_keeps_ordinal :
  extract_toc is_word_ascii (u "x") (doc [el "h2" [("id", "x")] [] [txt "1 Foo"]])
  = Success (u "x") (u "Unknown")
      [ {| level := 2; title := u "1 Foo"; anchor := u "x"; href := u "#x" |} ] 1
  /\ extract_toc is_word_ascii (u "x")
       (doc [el "div" [("id", "toc")] []
               [el "ul" [] [] [el "li" [] ["toclevel-1"] [el "a" [("href", "#x")] [] [txt "1 2 Foo"]]]]])
     = Success (u "x") (u "Unknown")
         [ {| level := 1; title := u "2 Foo"; anchor := u "x"; href := u "#x" |} ] 1.
Proof. split; vm_compute; reflexivity. Qed.

(** * Decoding with a suffix appended *)

Lemma utf8_decode_app : forall bs cs,
  head_not (fun b => 128 <=? b) cs -> utf8_decode (bs ++ cs) = utf8_decode bs ++ utf8_decode cs.
Proof.
  intros bs cs Hc. destruct cs as [|c cs']; [rewrite !app_nil_r; reflexivity|].
  simpl in Hc.
  assert (Hcont : is_cont c = false) by (unfold is_cont, in_range; rewrite Hc; reflexivity).
  assert (Hlo : forall lo hi, 128 <= lo -> in_range lo hi c = false).
  { intros lo hi Hl. unfold in_range. apply Z.leb_gt in Hc.
    destruct (Z.leb_spec lo c); [lia|reflexivity]. }
  remember (List.length bs) as n eqn:Hn. revert bs Hn.
  induction n as [n IH] using (well_founded_induction lt_wf).
  intros [|b rest] Hn; [reflexivity|].
  assert (IH' : forall y, (List.length y < List.length (b :: rest))%nat ->
                utf8_decode (y ++ c :: cs') = utf8_decode y ++ utf8_decode (c :: cs'))
    by (intros y Hy; apply (IH (List.length y)); [subst n; exact Hy | reflexivity]).
  clear IH.
  remember (c :: cs') as C eqn:HC.
  simpl.
  repeat (first [ match goal with
                  | |- context [utf8_decode (?y ++ C)] => rewrite (IH' y) by (simpl; lia)
                  end
                | rewrite Hcont
                | rewrite Hlo by (repeat match goal with
                                         | |- context [if ?x then _ else _] => destruct x
                                         end; lia)
                | match goal with
                  | |- context [if ?x then _ else _] => destruct x
                  end
                | match goal with
                  | |- context [match ?l ++ C with _ => _ end] => is_var l; destruct l
                  end
                | match goal with
                  | |- context [match C with _ => _ end] => rewrite HC
                  end ]; simpl).
all: reflexivity.
Qed.

Lemma unquote_to_bytes_app : forall r y,
  head_not is_hex_digit y -> unquote_to_bytes (r ++ y) = unquote_to_bytes r ++ unquote_to_bytes y.
Proof.
  intros r y Hy.
  remember (List.length r) as n eqn:Hn. revert r Hn.
  induction n as [n IH] using (well_founded_induction lt_wf).
  intros [|c r'] Hn; [reflexivity|].
  assert (IH' : forall z, (List.length z < List.length (c :: r'))%nat ->
                unquote_to_bytes (z ++ y) = unquote_to_bytes z ++ unquote_to_bytes y)
    by (intros z Hz; apply (IH (List.length z)); [subst n; exact Hz | reflexivity]).
  clear IH. simpl.
  repeat (first [ match goal with
                  | |- context [unquote_to_bytes (?z ++ y)] => rewrite (IH' z) by (simpl; lia)
                  end
                | rewrite Hy, ?andb_false_r
                | match goal with
                  | |- context [if ?x then _ else _] => destruct x
                  end
                | match goal with
                  | |- context [match ?l ++ y with _ => _ end] => is_var l; destruct l
                  end
                | match goal with
                  | |- context [match y with _ => _ end] => destruct y as [|h y]; [clear Hy | simpl in Hy]
                  end ]; simpl).
  all: reflexivity.
Qed.

Lemma break_at_spec : forall p s a b,
  break_at p s = (a, b) -> s = a ++ b /\ Forall (fun x => p x = false) a
                           /\ head_not (fun x => negb (p x)) b.
Proof.
  intros p s. induction s as [|c s IH]; simpl; intros a b H.
  - inversion H; subst. simpl. auto.
  - destruct (p c) eqn:Hc.
    + inversion H; subst. simpl. rewrite Hc. auto.
    + destruct (break_at p s) as [a' b'] eqn:E. injection H as <- <-.
      destruct (IH a' b' eq_refl) as [-> [Ha Hb]]. simpl. auto.
Qed.

(** [unquote_go] decodes the ASCII run up to the first non-ASCII
    character, keeps that character, and starts a new run after it. *)
Lemma unquote_go_split : forall s run,
  unquote_go run s =
  decode_run (rev run ++ fst (break_at (fun c => 128 <=? c) s))
  ++ match snd (break_at (fun c => 128 <=? c) s) with
     | [] => []
     | c :: s' => c :: unquote_go [] s'
     end.
Proof.
  induction s as [|c s IH]; intros run; simpl.
  - rewrite !app_nil_r. reflexivity.
  - rewrite (Z.leb_antisym c 128). destruct (c <? 128) eqn:E; simpl.
    + rewrite IH. destruct (break_at _ s) as [a b]. simpl. rewrite <- app_assoc. reflexivity.
    + rewrite app_nil_r. reflexivity.
Qed.

(** A character that would join a percent escape before it. *)
Definition unquote_bad (c : Z) : bool := is_hex_digit c || (c =? 37).

Lemma decode_run_app : forall r a,
  head_not unquote_bad a -> head_not (fun c => 128 <=? c) a ->
  decode_run (r ++ a) = decode_run r ++ decode_run a.
Proof.
  intros r a Ha H128. unfold decode_run.
  rewrite unquote_to_bytes_app.
  - apply utf8_decode_app. destruct a as [|c a]; simpl in *; [exact I|].
    unfold unquote_bad in Ha. apply orb_false_iff in Ha as [_ H37]. rewrite H37. simpl. exact H128.
  - destruct a as [|c a]; simpl in *; [exact I|]. unfold unquote_bad in Ha.
    apply orb_false_iff in Ha as [Ha _]. exact Ha.
Qed.

Lemma unquote_to_bytes_plain : forall s, Forall (fun c => (c =? 37) = false) s -> unquote_to_bytes s = s.
Proof.
  intros s H. induction H as [|c s Hc _ IH]; simpl; [reflexivity|]. rewrite Hc, IH. reflexivity.
Qed.

Lemma utf8_decode_ascii : forall s, Forall (fun c => (128 <=? c) = false) s -> utf8_decode s = s.
Proof.
  intros s H. induction H as [|c s Hc _ IH]; simpl; [reflexivity|].
  rewrite (Z.leb_antisym c 128) in Hc. destruct (c <? 128); [|discriminate]. rewrite IH. reflexivity.
Qed.

Lemma unquote_go_plain : forall s,
  Forall (fun c => unquote_bad c = false) s -> unquote_go [] s = s.
Proof.
  intros s. remember (List.length s) as n eqn:Hn. revert s Hn.
  induction n as [n IH] using (well_founded_induction lt_wf). intros s Hn H.
  rewrite unquote_go_split. destruct (break_at (fun c => 128 <=? c) s) as [a b] eqn:E.
  destruct (break_at_spec _ _ _ _ E) as [Es [Ha _]]. simpl.
  assert (Da : decode_run a = a).
  { unfold decode_run. rewrite Es in H. apply Forall_app in H as [H _].
    rewrite unquote_to_bytes_plain.
    - apply utf8_decode_ascii. exact Ha.
    - eapply Forall_impl; [|exact H]. intros c Hc. unfold unquote_bad in Hc.
      apply orb_false_iff in Hc as [_ Hc]. exact Hc. }
  rewrite Da. subst s. destruct b as [|c b]; [rewrite app_nil_r; reflexivity|].
  apply Forall_app in H as [_ H]. inversion H; subst.
  rewrite (IH (List.length b)); [reflexivity | | reflexivity | assumption].
  rewrite length_app. simpl. lia.
Qed.

Lemma unquote_go_app : forall x run y,
  head_not unquote_bad y -> unquote_go run (x ++ y) = unquote_go run x ++ unquote_go [] y.
Proof.
  induction x as [|c x IH]; intros run y Hy; simpl.
  - rewrite (unquote_go_split y run), (unquote_go_split y []). simpl.
    destruct (break_at (fun c => 128 <=? c) y) as [a b] eqn:E. simpl.
    destruct (break_at_spec _ _ _ _ E) as [Ey [Ha _]].
    rewrite decode_run_app; [rewrite <- app_assoc; reflexivity| |].
    + destruct a as [|d a]; simpl; [exact I|]. subst y. simpl in Hy. exact Hy.
    + destruct a as [|d a]; simpl; [exact I|]. inversion Ha; assumption.
  - destruct (c <? 128); [apply IH; exact Hy|].
    rewrite IH by exact Hy. rewrite <- app_assoc. reflexivity.
Qed.

(** Whitespace is not a percent sign, a hex digit, a URL delimiter or a
    character folded by [re.IGNORECASE]. *)
Lemma ws_facts : forall c, py_isspace c = true ->
  unquote_bad c = false /\ (c =? 37) = false /\ (c =? 35) = false /\ (c =? 63) = false
  /\ (c =? 47) = false /\ (c =? 59) = false /\ (c =? 58) = false /\ re_fold c = c.
Proof.
  intros c H. unfold py_isspace in H.
  rewrite !orb_true_iff, !andb_true_iff, !Z.leb_le, !Z.eqb_eq in H.
  assert (Hhex : is_hex_digit c = false).
  { unfold is_hex_digit, is_ascii_digit. apply not_true_iff_false.
    rewrite !orb_true_iff, !andb_true_iff, !Z.leb_le. intros X.
    repeat match goal with Y : _ \/ _ |- _ => destruct Y end; lia. }
  assert (Hne : forall k, 33 <= k <= 127 -> (c =? k) = false).
  { intros k Hk. apply Z.eqb_neq. intros ->.
    repeat match goal with Y : _ \/ _ |- _ => destruct Y end; lia. }
  unfold unquote_bad. rewrite Hhex, (Hne 37), (Hne 35), (Hne 63), (Hne 47), (Hne 59), (Hne 58)
    by lia.
  repeat split.
  - unfold re_fold.
    destruct ((65 <=? c) && (c <=? 90)) eqn:E1.
    { apply andb_true_iff in E1. rewrite !Z.leb_le in E1.
      repeat match goal with Y : _ \/ _ |- _ => destruct Y end; lia. }
    destruct ((c =? 304) || (c =? 305)) eqn:E2.
    { apply orb_true_iff in E2. rewrite !Z.eqb_eq in E2.
      repeat match goal with Y : _ \/ _ |- _ => destruct Y end; lia. }
    destruct (c =? 383) eqn:E3.
    { apply Z.eqb_eq in E3. repeat match goal with Y : _ \/ _ |- _ => destruct Y end; lia. }
    destruct (c =? 8490) eqn:E4.
    { apply Z.eqb_eq in E4. repeat match goal with Y : _ \/ _ |- _ => destruct Y end; lia. }
    reflexivity.
Qed.

Definition all_ws (w : ustr) : Prop := Forall (fun c => py_isspace c = true) w.

(** Decoding a name followed by whitespace. *)
Lemma unquote_app_ws : forall x w, all_ws w -> unquote (x ++ w) = unquote x ++ w.
Proof.
  intros x w Hw.
  assert (Hb : Forall (fun c => unquote_bad c = false) w).
  { eapply Forall_impl; [|exact Hw]. intros c Hc. apply (ws_facts c Hc). }
  unfold unquote, contains. rewrite existsb_app.
  assert (E : existsb (Z.eqb 37) w = false).
  { apply not_true_iff_false. intros X. apply existsb_exists in X as [c [Hc Hc']].
    unfold all_ws in Hw. rewrite Forall_forall in Hw. destruct (ws_facts c (Hw c Hc)) as [_ [H37 _]].
    rewrite Z.eqb_sym in Hc'. congruence. }
  rewrite E, orb_false_r. destruct (existsb (Z.eqb 37) x); [|reflexivity].
  rewrite unquote_go_app.
  - rewrite (unquote_go_plain w Hb). reflexivity.
  - destruct w as [|c w]; simpl; [exact I|]. inversion Hb; assumption.
Qed.

(** ** Appending a query or a fragment to an accepted URL *)

Lemma hd_rev_colon_in : forall p, hd 0 (rev p) = 58 -> In 58 p.
Proof.
  intros p H. apply in_rev. destruct (rev p) as [|x l]; simpl in *; [discriminate|]. left; exact H.
Qed.

Lemma match_prefix_ci_colon_ws : forall p w, In 58 p -> all_ws w -> match_prefix_ci p w = false.
Proof.
  induction p as [|q p IH]; intros w Hin Hw; [contradiction|].
  destruct w as [|d w]; [reflexivity|]. inversion Hw as [|d' w' Hd Hw']; subst. simpl.
  destruct (ws_facts d Hd) as [_ [_ [_ [_ [_ [_ [H58 Hf]]]]]]].
  destruct Hin as [-> | Hin].
  - rewrite Hf. change (re_fold 58) with 58. rewrite Z.eqb_sym, H58. reflexivity.
  - rewrite IH by assumption. apply andb_false_r.
Qed.

Lemma match_prefix_ci_app_ws : forall x p w,
  hd 0 (rev p) = 58 -> all_ws w -> match_prefix_ci p (x ++ w) = match_prefix_ci p x.
Proof.
  induction x as [|y x IH]; intros p w Hp Hw.
  - simpl. rewrite match_prefix_ci_colon_ws by (auto using hd_rev_colon_in).
    destruct p; [discriminate | reflexivity].
  - destruct p as [|q p]; [reflexivity|]. simpl.
    destruct p as [|q' p']; [reflexivity|].
    rewrite IH; [reflexivity| |exact Hw].
    simpl in Hp |- *. rewrite <- app_assoc in Hp.
    destruct (rev p') as [|z l]; exact Hp.
Qed.

Lemma first_match_app_ws : forall pats x w,
  forallb (fun p => hd 0 (rev p) =? 58) pats = true -> all_ws w ->
  first_match pats (x ++ w) = first_match pats x.
Proof.
  induction pats as [|p pats IH]; intros x w Hp Hw; [reflexivity|].
  simpl in Hp |- *. apply andb_true_iff in Hp as [H1 H2]. apply Z.eqb_eq in H1.
  rewrite match_prefix_ci_app_ws by assumption. rewrite IH by assumption. reflexivity.
Qed.

Lemma forbidden_patterns_colon :
  forallb (fun p => hd 0 (rev p) =? 58) forbidden_patterns = true.
Proof. vm_compute. reflexivity. Qed.

Lemma startswith_app : forall p x y, startswith p x = true -> startswith p (x ++ y) = true.
Proof.
  induction p as [|a p IH]; intros [|b x] y H; simpl in *; try discriminate; auto.
  apply andb_true_iff in H as [H1 H2]. rewrite H1. simpl. apply IH. exact H2.
Qed.

Lemma startswith_split : forall p s, startswith p s = true -> s = p ++ skipn (List.length p) s.
Proof.
  induction p as [|a p IH]; intros [|b s] H; simpl in *; try discriminate; auto.
  apply andb_true_iff in H as [H1 H2]. apply Z.eqb_eq in H1. subst b. f_equal. apply IH. exact H2.
Qed.

Lemma startswith_length : forall p s, startswith p s = true -> (List.length p <= List.length s)%nat.
Proof.
  intros p s H. rewrite (startswith_split p s H), length_app. lia.
Qed.

Lemma skipn_app_le : forall n (x y : ustr), (n <= List.length x)%nat -> skipn n (x ++ y) = skipn n x ++ y.
Proof.
  intros n x y H. rewrite skipn_app. replace (n - List.length x)%nat with 0%nat by lia. reflexivity.
Qed.

Lemma break_at_app_found : forall p x y a b,
  break_at p x = (a, b) -> b <> [] -> break_at p (x ++ y) = (a, b ++ y).
Proof.
  intros p x. induction x as [|c x IH]; intros y a b H Hb; simpl in *.
  - injection H as <- <-. contradiction.
  - destruct (p c); [injection H as <- <-; reflexivity|].
    destruct (break_at p x) as [a' b'] eqn:E. injection H as <- <-.
    rewrite (IH y a' b' eq_refl Hb). reflexivity.
Qed.

Lemma split_first_spec : forall c s a b, split_first c s = Some (a, b) -> s = a ++ c :: b.
Proof.
  intros c s. induction s as [|x s IH]; intros a b H; simpl in H; [discriminate|].
  destruct (x =? c) eqn:E.
  - injection H as <- <-. apply Z.eqb_eq in E. subst. reflexivity.
  - destruct (split_first c s) as [[a' b']|] eqn:E'; [|discriminate]. injection H as <- <-.
    rewrite (IH a' b' eq_refl). reflexivity.
Qed.

Lemma no_char_of_filter : forall cs f s, no_char_of cs s = true -> no_char_of cs (filter f s) = true.
Proof.
  intros cs f s H. induction s as [|x s IH]; simpl in *; [reflexivity|].
  apply andb_true_iff in H as [H1 H2]. destruct (f x); simpl; [rewrite H1|]; auto.
Qed.

Lemma no_char_of_suffix : forall cs x y, no_char_of cs (x ++ y) = true -> no_char_of cs y = true.
Proof. intros cs x y H. rewrite no_char_of_app in H. apply andb_true_iff in H. apply H. Qed.

Lemma no_char_of_prefix : forall cs x y, no_char_of cs (x ++ y) = true -> no_char_of cs x = true.
Proof. intros cs x y H. rewrite no_char_of_app in H. apply andb_true_iff in H. apply H. Qed.

Lemma all_ws_filter : forall f w, all_ws w -> all_ws (filter f w).
Proof.
  intros f w H. unfold all_ws in *. apply Forall_forall. intros x Hx.
  apply filter_In in Hx as [Hx _]. rewrite Forall_forall in H. auto.
Qed.

Lemma all_ws_no_char : forall cs w,
  (forall c, py_isspace c = true -> existsb (Z.eqb c) cs = false) -> all_ws w -> no_char_of cs w = true.
Proof.
  intros cs w Hcs H. unfold no_char_of. apply forallb_forall. intros x Hx.
  unfold all_ws in H. rewrite Forall_forall in H. rewrite Hcs by auto. reflexivity.
Qed.

Lemma ws_no_delims : forall w, all_ws w -> no_char_of [35; 63; 47; 59] w = true.
Proof.
  intros w. apply all_ws_no_char. intros c Hc.
  destruct (ws_facts c Hc) as [_ [_ [H35 [H63 [H47 [H59 _]]]]]]. simpl.
  rewrite H35, H63, H47, H59. reflexivity.
Qed.

Lemma remove_unsafe_app : forall x y, remove_unsafe (x ++ y) = remove_unsafe x ++ remove_unsafe y.
Proof. intros. unfold remove_unsafe, remove_char. rewrite !filter_app. reflexivity. Qed.

Lemma remove_unsafe_delim : forall c r, c = 35 \/ c = 63 -> remove_unsafe (c :: r) = c :: remove_unsafe r.
Proof. intros c r [-> | ->]; reflexivity. Qed.

Lemma no_char_of_remove_unsafe : forall cs s, no_char_of cs s = true -> no_char_of cs (remove_unsafe s) = true.
Proof. intros. unfold remove_unsafe, remove_char. repeat apply no_char_of_filter. assumption. Qed.

Lemma lstrip_by_no_char : forall cs p s, no_char_of cs s = true -> no_char_of cs (lstrip_by p s) = true.
Proof.
  intros cs p s H. destruct (lstrip_by_spec p s) as [w [E _]]. rewrite E in H.
  eapply no_char_of_suffix; exact H.
Qed.

Ltac crush_split H :=
  repeat match type of H with
         | context [match ?x with _ => _ end] => destruct x
         end;
  try discriminate H;
  try (injection H as <-; simpl in *; congruence).

Lemma urlsplit_ext : forall nfkc ip t sr w c r,
  urlsplit nfkc ip t = Some sr ->
  sr_scheme sr <> [] -> sr_netloc sr <> [] -> sr_path sr <> [] ->
  no_char_of [35; 63] t = true -> all_ws w -> c = 35 \/ c = 63 ->
  exists q f, urlsplit nfkc ip (t ++ w ++ c :: r) =
    Some {| sr_scheme := sr_scheme sr; sr_netloc := sr_netloc sr;
            sr_path := sr_path sr ++ remove_unsafe w;
            sr_query := q; sr_fragment := f |}.
Proof.
  intros nfkc ip t sr w c r H Hs Hn Hp Ht Hw Hc.
  unfold urlsplit in H |- *. cbv zeta in H |- *.
  destruct (lstrip_by is_c0_or_space t) as [|h1 T1] eqn:ET1.
  { simpl in H. injection H as <-. simpl in Hs. congruence. }
  rewrite (lstrip_by_app _ t (w ++ c :: r)) by (rewrite ET1; discriminate).
  rewrite ET1, !remove_unsafe_app, (remove_unsafe_delim c r Hc).
  assert (HT2 : no_char_of [35; 63] (remove_unsafe (h1 :: T1)) = true).
  { apply no_char_of_remove_unsafe. rewrite <- ET1. apply lstrip_by_no_char. exact Ht. }
  set (T2 := remove_unsafe (h1 :: T1)) in *.
  set (w' := remove_unsafe w). set (r' := remove_unsafe r).
  assert (Hw' : no_char_of [35; 63; 47; 59] w' = true)
    by (apply ws_no_delims, all_ws_filter, all_ws_filter, all_ws_filter, Hw).
  destruct (split_first 58 T2) as [[pre post]|] eqn:E58; [|crush_split H].
  rewrite (split_first_app_some _ _ _ _ _ E58).
  destruct pre as [|c0 pre']; [crush_split H|].
  match type of H with
  | context [if ?b then _ else _] => destruct b eqn:Etest; [|crush_split H]
  end.
  destruct (startswith (u "//") post) eqn:E2; [|crush_split H].
  rewrite (startswith_app _ _ _ E2).
  rewrite skipn_app_le by (apply startswith_length in E2; exact E2).
  destruct (break_at is_netloc_delim (skipn 2 post)) as [nl r0] eqn:Eb.
  destruct r0 as [|r0h r0t]; [simpl in H; crush_split H|].
  rewrite (break_at_app_found _ _ _ _ _ Eb) by congruence.
  destruct (netloc_brackets_ok ip nl) eqn:Eok; [|simpl in H; discriminate H].
  assert (Hr0 : no_char_of [35; 63] (r0h :: r0t) = true).
  { rewrite (split_first_spec _ _ _ _ E58) in HT2. apply no_char_of_suffix in HT2.
    simpl in HT2.
    rewrite <- (firstn_skipn 2 post) in HT2. apply no_char_of_suffix in HT2.
    destruct (break_at_spec _ _ _ _ Eb) as [Es _]. rewrite Es in HT2.
    apply no_char_of_suffix in HT2. exact HT2. }
  assert (N35 : split_first 35 (r0h :: r0t) = None)
    by (apply split_first_none, (no_char_of_contains _ _ _ Hr0); simpl; auto).
  assert (N63 : split_first 63 (r0h :: r0t) = None)
    by (apply split_first_none, (no_char_of_contains _ _ _ Hr0); simpl; auto).
  assert (W35 : split_first 35 w' = None)
    by (apply split_first_none, (no_char_of_contains _ _ _ Hw'); simpl; auto).
  assert (W63 : split_first 63 w' = None)
    by (apply split_first_none, (no_char_of_contains _ _ _ Hw'); simpl; auto).
  rewrite N35, N63 in H. simpl in H.
  destruct (checknetloc nfkc nl) eqn:Ec; [|discriminate H].
  injection H as <-. cbn [sr_scheme sr_netloc sr_path].
  remember (r0h :: r0t) as R0 eqn:ER0.
  rewrite (split_first_app_none 35 R0) by exact N35.
  rewrite (split_first_app_none 35 w') by exact W35.
  destruct Hc as [-> | ->].
  - simpl. rewrite app_nil_r, (split_first_app_none 63 R0) by exact N63.
    rewrite W63. eexists; eexists; reflexivity.
  - simpl. destruct (split_first 35 r') as [[a b]|]; simpl;
      rewrite (split_first_app_none 63 R0) by exact N63; simpl;
      rewrite ?(split_first_app_none 63 w' _ W63); simpl;
      eexists; eexists; rewrite ?app_nil_r; reflexivity.
Qed.

Lemma all_ws_remove_unsafe : forall w, all_ws w -> all_ws (remove_unsafe w).
Proof. intros w H. unfold remove_unsafe, remove_char. repeat apply all_ws_filter. exact H. Qed.

Lemma contains_rev : forall c s, contains c (rev s) = contains c s.
Proof.
  intros c s. unfold contains. induction s as [|a s IH]; simpl; [reflexivity|].
  rewrite existsb_app, IH. simpl. rewrite orb_false_r, orb_comm. reflexivity.
Qed.

Lemma contains_app_none : forall c x w, contains c w = false -> contains c (x ++ w) = contains c x.
Proof. intros c x w H. unfold contains in *. rewrite existsb_app, H, orb_false_r. reflexivity. Qed.

Lemma split_last_app_none : forall c x w, contains c w = false ->
  split_last c (x ++ w) = match split_last c x with
                          | Some (a, b) => Some (a, b ++ w)
                          | None => None
                          end.
Proof.
  intros c x w H. unfold split_last. rewrite rev_app_distr, split_first_app_none.
  - destruct (split_first c (rev x)) as [[a b]|]; [|reflexivity].
    rewrite rev_app_distr, rev_involutive. reflexivity.
  - apply split_first_none. rewrite contains_rev. exact H.
Qed.

Lemma splitparams_app_ws : forall P w,
  contains 47 w = false -> contains 59 w = false ->
  exists w'' pm, (w'' = [] \/ w'' = w) /\ splitparams (P ++ w) = (fst (splitparams P) ++ w'', pm).
Proof.
  intros P w H47 H59. unfold splitparams. rewrite (split_last_app_none _ _ _ H47).
  destruct (split_last 47 P) as [[bf af]|].
  - destruct (split_first 59 af) as [[a b]|] eqn:E.
    + rewrite (split_first_app_some _ _ _ _ _ E). exists [], (b ++ w).
      rewrite app_nil_r. auto.
    + rewrite (split_first_app_none _ _ _ E), (split_first_none _ _ H59). exists w, []. auto.
  - destruct (split_first 59 P) as [[a b]|] eqn:E.
    + rewrite (split_first_app_some _ _ _ _ _ E). exists [], (b ++ w).
      rewrite app_nil_r. auto.
    + rewrite (split_first_app_none _ _ _ E), (split_first_none _ _ H59). exists w, []. auto.
Qed.

Lemma urlparse_ext : forall nfkc ip t p w c r,
  urlparse nfkc ip t = Some p ->
  pr_scheme p <> [] -> pr_netloc p <> [] -> pr_path p <> [] ->
  no_char_of [35; 63] t = true -> all_ws w -> c = 35 \/ c = 63 ->
  exists p', urlparse nfkc ip (t ++ w ++ c :: r) = Some p'
    /\ pr_scheme p' = pr_scheme p /\ pr_netloc p' = pr_netloc p
    /\ exists w'', all_ws w'' /\ pr_path p' = pr_path p ++ w''.
Proof.
  intros nfkc ip t p w c r H Hs Hn Hp Ht Hw Hc.
  unfold urlparse in H |- *.
  destruct (urlsplit nfkc ip t) as [sr|] eqn:Es; [|discriminate H].
  assert (Hpath : sr_path sr <> []).
  { intros E. rewrite E in H. replace (contains 59 []) with false in H by reflexivity.
    rewrite andb_false_r in H. injection H as <-. apply Hp. reflexivity. }
  assert (Hs' : sr_scheme sr <> []).
  { intros E. apply Hs. destruct (_ && _) in H; [destruct (splitparams _) in H|];
    injection H as <-; exact E. }
  assert (Hn' : sr_netloc sr <> []).
  { intros E. apply Hn. destruct (_ && _) in H; [destruct (splitparams _) in H|];
    injection H as <-; exact E. }
  destruct (urlsplit_ext nfkc ip t sr w c r Es Hs' Hn' Hpath Ht Hw Hc) as [q [f Ex]].
  rewrite Ex. cbn [sr_scheme sr_netloc sr_path sr_query sr_fragment].
  pose proof (all_ws_remove_unsafe w Hw) as Hw'.
  pose proof (ws_no_delims _ Hw') as Hd.
  assert (H47 : contains 47 (remove_unsafe w) = false)
    by (apply (no_char_of_contains _ _ _ Hd); simpl; auto).
  assert (H59 : contains 59 (remove_unsafe w) = false)
    by (apply (no_char_of_contains _ _ _ Hd); simpl; auto).
  rewrite (contains_app_none _ _ _ H59).
  destruct (existsb (ueqb (sr_scheme sr)) uses_params && contains 59 (sr_path sr)).
  - destruct (splitparams_app_ws (sr_path sr) _ H47 H59) as [w'' [pm [Hw'' Esp]]].
    rewrite Esp. destruct (splitparams (sr_path sr)) as [pa pp]. injection H as <-.
    eexists. split; [reflexivity|]. cbn. split; [reflexivity|]. split; [reflexivity|].
    exists w''. split; [|reflexivity]. destruct Hw'' as [-> | ->]; [constructor | exact Hw'].
  - injection H as <-. eexists. split; [reflexivity|]. cbn.
    split; [reflexivity|]. split; [reflexivity|]. exists (remove_unsafe w). auto.
Qed.

Lemma validate_parsed_nonempty : forall p,
  validate_parsed p = (true, []) ->
  pr_scheme p <> [] /\ pr_netloc p <> [] /\ pr_path p <> [].
Proof.
  intros p H. unfold validate_parsed in H.
  destruct (ueqb (pr_scheme p) (u "https")) eqn:E1; [|discriminate H].
  destruct (endswith (u ".wikipedia.org") (pr_netloc p)) eqn:E2; [|discriminate H].
  destruct (_ || _); [discriminate H|].
  destruct (startswith (u "/wiki/") (pr_path p)) eqn:E3; [|discriminate H].
  repeat split; intros E; [rewrite E in E1 | rewrite E in E2 | rewrite E in E3]; discriminate.
Qed.

Lemma validate_parsed_ext : forall p p' w,
  validate_parsed p = (true, []) ->
  pr_scheme p' = pr_scheme p -> pr_netloc p' = pr_netloc p ->
  all_ws w -> pr_path p' = pr_path p ++ w ->
  validate_parsed p' = (true, []).
Proof.
  intros p p' w H Hs Hn Hw Hp. unfold validate_parsed in *. rewrite Hs, Hn, Hp.
  destruct (negb (ueqb (pr_scheme p) (u "https"))); [discriminate H|].
  destruct (negb (endswith (u ".wikipedia.org") (pr_netloc p))); [discriminate H|].
  destruct (_ || _); [discriminate H|].
  destruct (startswith (u "/wiki/") (pr_path p)) eqn:Ew; [|discriminate H].
  rewrite (startswith_app _ _ _ Ew). cbn [negb] in H |- *.
  rewrite (startswith_split _ _ Ew) in H |- *.
  set (z := skipn (List.length (u "/wiki/")) (pr_path p)) in *. clearbody z.
  rewrite <- app_assoc.
  assert (F : forall Y, startswith (u "/w/") (u "/wiki/" ++ Y) = false
                     /\ startswith (u "/api/") (u "/wiki/" ++ Y) = false
                     /\ startswith (u "/trap/") (u "/wiki/" ++ Y) = false
                     /\ skipn 6 (u "/wiki/" ++ Y) = Y) by (intros Y; repeat split).
  destruct (F z) as [F1 [F2 [F3 F4]]]. destruct (F (z ++ w)) as [G1 [G2 [G3 G4]]].
  rewrite F1, F2, F3, F4 in H. rewrite G1, G2, G3, G4, (unquote_app_ws _ _ Hw).
  destruct (unquote z) as [|a l]; [discriminate H|].
  rewrite (first_match_app_ws _ _ _ forbidden_patterns_colon Hw).
  destruct (first_match forbidden_patterns (a :: l)); [discriminate H|]. reflexivity.
Qed.

Lemma lstrip_by_to_nonp : forall p x c z,
  p c = false -> exists x', lstrip_by p (x ++ c :: z) = x' ++ c :: z.
Proof.
  intros p x c z Hc. induction x as [|a x IH]; simpl.
  - rewrite Hc. exists []. reflexivity.
  - destruct (p a); [exact IH|]. exists (a :: x). reflexivity.
Qed.

Lemma py_strip_ext : forall s c rest,
  py_strip s <> [] -> py_isspace c = false ->
  exists w1 w2 r', all_ws w2 /\ s = w1 ++ py_strip s ++ w2
    /\ py_strip (s ++ c :: rest) = py_strip s ++ w2 ++ c :: r'.
Proof.
  intros s c rest Hne Hc. destruct (py_strip_spec s) as [w1 [w2 [Es [A1 [A2 [H1 H2]]]]]].
  exists w1, w2. set (t := py_strip s) in *. clearbody t.
  assert (E : exists r', py_strip (s ++ c :: rest) = t ++ w2 ++ c :: r').
  { unfold py_strip, rstrip_by. rewrite Es, <- !app_assoc, (lstrip_by_all _ _ _ A1).
    destruct t as [|a t']; [congruence|].
    rewrite (lstrip_by_id py_isspace ((a :: t') ++ w2 ++ c :: rest)) by exact H1.
    remember (a :: t') as T eqn:ET. clear ET.
    assert (R : rev (T ++ w2 ++ c :: rest) = rev rest ++ c :: (rev w2 ++ rev T)).
    { rewrite !rev_app_distr. simpl. rewrite <- !app_assoc. reflexivity. }
    rewrite R. destruct (lstrip_by_to_nonp py_isspace (rev rest) c (rev w2 ++ rev T) Hc)
      as [x' Ex]. rewrite Ex. exists (rev x').
    rewrite rev_app_distr. simpl. rewrite rev_app_distr, !rev_involutive, <- !app_assoc. reflexivity. }
  destruct E as [r' E]. exists r'. auto.
Qed.

Lemma validate_some_stripped : forall nfkc ip x a t,
  py_strip x = a :: t ->
  validate_wikipedia_url nfkc ip (Some x) =
    match urlparse nfkc ip (a :: t) with
    | None => (false, msg_invalid_format)
    | Some parsed => validate_parsed parsed
    end.
Proof.
  intros nfkc ip x a t H. destruct x as [|x0 x']; [discriminate H|].
  unfold validate_wikipedia_url. cbv beta iota. rewrite H. reflexivity.
Qed.

(** C8: appending a query string or a fragment (a ['?'] or a ['#'] followed
    by anything) to an accepted URL that has neither keeps it accepted with
    an empty reason. *)
Theorem validate_query_fragment_invariant : forall nfkc ip s c rest,
  no_char_of [35; 63] s = true -> c = 35 \/ c = 63 ->
  validate_wikipedia_url nfkc ip (Some s) = (true, []) ->
  validate_wikipedia_url nfkc ip (Some (s ++ c :: rest)) = (true, []).
Proof.
  intros nfkc ip s c rest Hs Hc H.
  assert (Hne : py_strip s <> []).
  { intros E. unfold validate_wikipedia_url in H. destruct s as [|x0 s']; [discriminate H|].
    cbv beta iota in H. rewrite E in H. discriminate H. }
  assert (Hcs : py_isspace c = false) by (destruct Hc as [-> | ->]; reflexivity).
  destruct (py_strip_ext s c rest Hne Hcs) as [w1 [w2 [r' [Hw2 [Es E']]]]].
  destruct (py_strip s) as [|a t] eqn:Et; [congruence|].
  rewrite (validate_some_stripped _ _ _ _ _ Et) in H.
  rewrite (validate_some_stripped _ _ _ a (t ++ w2 ++ c :: r') E').
  destruct (urlparse nfkc ip (a :: t)) as [p|] eqn:Ep; [|discriminate H].
  destruct (validate_parsed_nonempty p H) as [N1 [N2 N3]].
  assert (Ht : no_char_of [35; 63] (a :: t) = true).
  { rewrite Es in Hs. apply no_char_of_suffix in Hs. apply no_char_of_prefix in Hs. exact Hs. }
  destruct (urlparse_ext nfkc ip (a :: t) p w2 c r' Ep N1 N2 N3 Ht Hw2 Hc)
    as [p' [Ep' [S1 [S2 [w'' [Hw'' S3]]]]]].
  change (a :: t ++ w2 ++ c :: r') with ((a :: t) ++ w2 ++ c :: r'). rewrite Ep'.
  exact (validate_parsed_ext p p' w'' H S1 S2 Hw'' S3).
Qed.

Lemma validate_query_fragment_invariant_witness :
  validate_wikipedia_url nfkc_ascii ip_address_none
    (Some (u "https://en.wikipedia.org/wiki/Test" ++ 63 :: u "action=edit#History")) = (true, []).
Proof.
  apply (validate_query_fragment_invariant nfkc_ascii ip_address_none
           (u "https://en.wikipedia.org/wiki/Test") 63 (u "action=edit#History"));
    [vm_compute; reflexivity | right; reflexivity | vm_compute; reflexivity].
Defined.

(** * Further properties of the program *)


Definition dstep (a c : Z) : Z := 10 * a + (c - 48).

Definition is_digit_cp (c : Z) : Prop := 48 <= c <= 57.

Lemma digits_go_spec : forall f n, 0 <= n -> (0 < f)%nat -> n < 10 ^ Z.of_nat f ->
  digits_go f n <> [] /\ Forall is_digit_cp (digits_go f n)
  /\ fold_left dstep (digits_go f n) 0 = n
  /\ (forall m, 1 <= m -> Z.of_nat (List.length (digits_go f n)) <= m <-> n < 10 ^ m).
Proof.
  induction f as [|f IH]; intros n Hn Hf0 Hf; [lia|]. cbn [digits_go].
  destruct (n <? 10) eqn:E.
  - apply Z.ltb_lt in E. split; [discriminate|]. split.
    + constructor; [unfold is_digit_cp; lia | constructor].
    + split; [cbn [fold_left]; unfold dstep; lia|].
      intros m Hm. cbn [List.length]. pose proof (Z.pow_le_mono_r 10 1 m ltac:(lia) Hm).
      rewrite Z.pow_1_r in *. lia.
  - apply Z.ltb_ge in E.
    rewrite Nat2Z.inj_succ, Z.pow_succ_r in Hf by lia.
    assert (Hd : 0 <= n / 10) by (apply Z.div_pos; lia).
    assert (Hf' : n / 10 < 10 ^ Z.of_nat f) by (apply Z.div_lt_upper_bound; lia).
    assert (Hf0' : (0 < f)%nat).
    { destruct f; [cbn in Hf; lia | lia]. }
    destruct (IH (n / 10) Hd Hf0' Hf') as [Hne [HF [HV HL]]].
    pose proof (Z.div_mod n 10 ltac:(lia)) as Hdm. pose proof (Z.mod_pos_bound n 10 ltac:(lia)).
    split; [destruct (digits_go f (n / 10)); discriminate|]. split.
    + apply Forall_app. split; [exact HF|]. constructor; [|constructor].
      unfold is_digit_cp. lia.
    + split; [rewrite fold_left_app, HV; cbn [fold_left]; unfold dstep; lia|].
      intros m Hm. rewrite length_app. cbn [List.length]. rewrite Nat2Z.inj_add.
      destruct (Z.eq_dec m 1) as [->|Hm1].
      * destruct (digits_go f (n / 10)); [congruence|]. cbn [List.length]. lia.
      * specialize (HL (m - 1) ltac:(lia)).
        replace (10 ^ m) with (10 * 10 ^ (m - 1))
          by (rewrite <- Z.pow_succ_r by lia; f_equal; lia).
        lia.
Qed.

Lemma dec_digits_spec : forall n, 0 <= n ->
  dec_digits n <> [] /\ Forall is_digit_cp (dec_digits n)
  /\ fold_left dstep (dec_digits n) 0 = n
  /\ (forall m, 1 <= m -> Z.of_nat (List.length (dec_digits n)) <= m <-> n < 10 ^ m).
Proof.
  intros n Hn. unfold dec_digits. apply digits_go_spec; [exact Hn | lia |].
  rewrite Nat2Z.inj_succ, Z2Nat.id by apply Z.log2_nonneg.
  destruct (Z.eq_dec n 0) as [->|Hn0]; [reflexivity|].
  destruct (Z.log2_spec n ltac:(lia)) as [_ H].
  eapply Z.lt_le_trans; [exact H|].
  apply Z.pow_le_mono_l. split; [lia|lia].
Qed.

Ltac enum_digit c H :=
  unfold is_digit_cp in H;
  assert (c = 48 \/ c = 49 \/ c = 50 \/ c = 51 \/ c = 52 \/ c = 53 \/ c = 54 \/ c = 55
          \/ c = 56 \/ c = 57) as Hcases by lia;
  clear H; repeat destruct Hcases as [-> | Hcases]; [..|subst c].

Lemma int_body_digits : forall ds acc, Forall is_digit_cp ds ->
  int_body acc ds = Some (fold_left dstep ds acc).
Proof.
  induction ds as [|c ds IH]; intros acc H; [reflexivity|].
  inversion H as [|? ? Hc Hds]; subst.
  enum_digit c Hc; simpl; rewrite IH by exact Hds; reflexivity.
Qed.

Lemma digit_not_space : forall c, is_digit_cp c -> py_isspace c = false.
Proof. intros c H. enum_digit c H; reflexivity. Qed.

Lemma py_strip_ws_around : forall w1 t w2, all_ws w1 -> all_ws w2 -> t <> [] ->
  head_not py_isspace t -> head_not py_isspace (rev t) ->
  py_strip (w1 ++ t ++ w2) = t.
Proof.
  intros w1 t w2 H1 H2 Hne Ht Hr. unfold py_strip, rstrip_by.
  rewrite (lstrip_by_all _ _ _ H1).
  destruct t as [|c t']; [congruence|].
  rewrite (lstrip_by_id py_isspace ((c :: t') ++ w2)) by exact Ht.
  rewrite rev_app_distr.
  rewrite (lstrip_by_all _ _ _ (Forall_rev H2)).
  rewrite lstrip_by_id by exact Hr. apply rev_involutive.
Qed.

Lemma z_id_match : forall z : Z,
  match z with 0 => 0 | Z.pos y => Z.pos y | Z.neg y => Z.neg y end = z.
Proof. intros [|y|y]; reflexivity. Qed.

Lemma forall_head_not : forall p l, Forall (fun c => p c = false) l -> head_not p l.
Proof. intros p l H. destruct H; simpl; auto. Qed.

Lemma py_strip_no_space : forall t, t <> [] -> Forall (fun c => py_isspace c = false) t ->
  forall w1 w2, all_ws w1 -> all_ws w2 -> py_strip (w1 ++ t ++ w2) = t.
Proof.
  intros t Hne H w1 w2 H1 H2. apply py_strip_ws_around; auto.
  - apply forall_head_not, H.
  - apply forall_head_not, Forall_rev, H.
Qed.

Lemma py_int_strip : forall s, py_int s = py_int (py_strip s).
Proof. intros s. unfold py_int. rewrite py_strip_idem. reflexivity. Qed.

Lemma cons_ne : forall (x : Z) l, x :: l <> [].
Proof. intros x l H. inversion H. Qed.

Lemma all_ws_nil : all_ws [].
Proof. constructor. Qed.

Lemma digits_no_space : forall ds, Forall is_digit_cp ds -> Forall (fun c => py_isspace c = false) ds.
Proof. intros ds H. eapply Forall_impl; [|exact H]. exact digit_not_space. Qed.

(** [int(ds)] on a string of decimal digits: its value, unless it has
    more than [int_max_str_digits] digits. *)
Lemma py_int_dec : forall ds, ds <> [] -> Forall is_digit_cp ds ->
  py_int ds = if int_max_str_digits <? Z.of_nat (List.length ds) then None
              else Some (fold_left dstep ds 0).
Proof.
  intros ds Hne HF.
  assert (Hs : py_strip ds = ds).
  { rewrite <- (app_nil_r ds) at 1. rewrite <- (app_nil_l (ds ++ [])).
    apply py_strip_no_space; [exact Hne | apply digits_no_space; exact HF | constructor | constructor]. }
  destruct ds as [|c r]; [congruence|]. apply Forall_cons_iff in HF as [Hc Hr].
  assert (Hf : filter (fun x => negb (x =? 95)) r = r).
  { apply filter_forallb_id, forallb_forall. intros x Hx. rewrite Forall_forall in Hr.
    specialize (Hr x Hx). unfold is_digit_cp in Hr. apply negb_true_iff, Z.eqb_neq. lia. }
  unfold py_int. rewrite Hs.
  enum_digit c Hc; cbv zeta; simpl; rewrite Hf;
    (destruct (int_max_str_digits <? _); [reflexivity|]);
    rewrite int_body_digits by exact Hr; cbn [option_map]; rewrite z_id_match; reflexivity.
Qed.

Lemma heading_level_tag_eq : forall tag,
  get_heading_level_from_tag tag =
    match node_name tag with
    | [a; d] => if (a =? 104) && (49 <=? d) && (d <=? 54) then d - 48 else 1
    | _ => 1
    end.
Proof.
  intros tag. unfold get_heading_level_from_tag.
  destruct (node_name tag) as [|a [|d [|x y]]]; try reflexivity.
  all: destruct a as [|p|p]; try reflexivity; repeat (destruct p as [p|p|]; try reflexivity).
Qed.

(** X1: the level of a heading tag is between 1 and 6: [k] for [h<k>]
    with [k] in 1..6, and 1 for any other tag. *)
Theorem heading_level_from_tag_range : forall tag,
  1 <= get_heading_level_from_tag tag <= 6 /\
  (forall d, node_name tag = [104; d] -> 49 <= d <= 54 -> get_heading_level_from_tag tag = d - 48).
Proof.
  intros tag. rewrite heading_level_tag_eq. split.
  - destruct (node_name tag) as [|a [|d [|x y]]]; try lia.
    destruct ((a =? 104) && (49 <=? d) && (d <=? 54)) eqn:E; [|lia].
    apply andb_true_iff in E as [E E3]. apply andb_true_iff in E as [_ E2].
    apply Z.leb_le in E2, E3. lia.
  - intros d Hn Hd. rewrite Hn. simpl.
    replace (49 <=? d) with true by (symmetry; apply Z.leb_le; lia).
    replace (d <=? 54) with true by (symmetry; apply Z.leb_le; lia). reflexivity.
Qed.

Lemma ul_walk_spec : forall fuel anc,
  ul_walk fuel anc =
    if existsb (is_named (u "ul")) (firstn fuel anc) then count_named (u "ul") anc else 1.
Proof.
  induction fuel as [|f IH]; intros anc; [reflexivity|].
  destruct anc as [|cur anc']; [reflexivity|].
  cbn [ul_walk firstn existsb]. unfold count_named. cbn [filter].
  destruct (is_named (u "ul") cur).
  - cbn [orb List.length]. rewrite Nat2Z.inj_succ. lia.
  - cbn [orb]. rewrite IH. reflexivity.
Qed.

(** X2: when the nearest [li] ancestor of a TOC link gives no level through
    a [toclevel-N] class, the level is the number of [ul] ancestors of the
    link if one of its five nearest ancestors is a [ul], and 1 otherwise;
    it is at least 1. *)
Theorem toc_item_level_ul_count : forall anc,
  match find_parent (u "li") anc with
  | Some (li, _) => level_from_classes (node_classes li)
  | None => None
  end = None ->
  get_heading_level_from_toc_item anc =
    (if existsb (is_named (u "ul")) (firstn 5 anc) then count_named (u "ul") anc else 1)
  /\ 1 <= get_heading_level_from_toc_item anc.
Proof.
  intros anc H. unfold get_heading_level_from_toc_item. cbv zeta. rewrite H, ul_walk_spec.
  split; [reflexivity|].
  destruct (existsb (is_named (u "ul")) (firstn 5 anc)) eqn:E; [|lia].
  apply existsb_exists in E as [x [Hx Hul]].
  unfold count_named. assert (In x (filter (is_named (u "ul")) anc)).
  { apply filter_In. split; [|exact Hul]. rewrite <- (firstn_skipn 5 anc). apply in_or_app. left. exact Hx. }
  destruct (filter (is_named (u "ul")) anc); [contradiction|]. simpl. lia.
Qed.

Lemma startswith_self_app : forall p x, startswith p (p ++ x) = true.
Proof. induction p as [|a p IH]; intros x; simpl; [reflexivity|]. rewrite Z.eqb_refl. apply IH. Qed.

(** X3: a TOC link whose nearest [li] ancestor has, as its first class,
    [toclevel-N] for the decimal digits of some [N >= 0] gets level [N]
    when [N] has at most [int_max_str_digits] digits; with more digits
    [int()] raises [ValueError], which the function catches, and the level
    comes from the remaining classes or else from the [ul] ancestors. *)
Theorem toc_item_level_from_class : forall anc li rest n cls,
  find_parent (u "li") anc = Some (li, rest) ->
  node_classes li = (u "toclevel-" ++ dec_digits n) :: cls ->
  0 <= n ->
  (n < 10 ^ int_max_str_digits -> get_heading_level_from_toc_item anc = n)
  /\ (10 ^ int_max_str_digits <= n ->
      get_heading_level_from_toc_item anc =
        match level_from_classes cls with
        | Some l => l
        | None => ul_walk 5 anc
        end).
Proof.
  intros anc li rest n cls Hp Hc Hn.
  destruct (dec_digits_spec n Hn) as [Hne [HF [HV HL]]].
  assert (Hf : toclevel_field (u "toclevel-" ++ dec_digits n) = dec_digits n).
  { unfold toclevel_field. change (skipn 9 (u "toclevel-" ++ dec_digits n)) with (dec_digits n).
    rewrite <- (app_nil_r (dec_digits n)) at 1.
    rewrite break_at_app_none; [cbn [break_at fst]; apply app_nil_r|].
    apply forallb_forall. intros c Hin. rewrite Forall_forall in HF.
    specialize (HF c Hin). unfold is_digit_cp in HF.
    apply negb_true_iff, Z.eqb_neq. lia. }
  unfold get_heading_level_from_toc_item. cbv zeta.
  rewrite Hp, Hc. cbn [level_from_classes]. rewrite startswith_self_app, Hf, py_int_dec by assumption.
  specialize (HL int_max_str_digits ltac:(unfold int_max_str_digits; lia)).
  split; intros Hm.
  - replace (int_max_str_digits <? Z.of_nat (List.length (dec_digits n))) with false by (symmetry; apply Z.ltb_ge; tauto).
    exact HV.
  - replace (int_max_str_digits <? Z.of_nat (List.length (dec_digits n))) with true by (symmetry; apply Z.ltb_lt; lia).
    reflexivity.
Qed.

Lemma is_heading_name : forall h, is_heading h = true ->
  exists d, node_name h = [104; d] /\ 50 <= d <= 54.
Proof.
  intros h H. unfold is_heading, heading_names in H. simpl in H. unfold is_named in H.
  repeat (apply orb_true_iff in H as [H|H]; [apply ueqb_eq in H; eexists; split; [exact H | lia]|]).
  discriminate H.
Qed.

Lemma heading_item_facts : forall is_word h anc e,
  heading_item is_word h anc = Some e ->
  level e = get_heading_level_from_tag h /\ anchor e <> []
  /\ startswith edit_marker (title e) = false
  /\ lower_is (title e) [30446; 27425] = false /\ lower_is (title e) (u "contents") = false
  /\ (get_attr (u "id") h = [] ->
        List.length (anchor e) = List.length (title e)
        /\ Forall (fun c => anchor_char is_word c = true \/ c = 95) (anchor e))
  /\ (get_attr (u "id") h <> [] -> anchor e = get_attr (u "id") h).
Proof.
  intros is_word h anc e H. unfold heading_item in H. cbv zeta in H.
  destruct (inside_removed_editsection anc); [discriminate|].
  set (text := collapse_ws (get_text_strip (remove_editsections h))) in *.
  match type of H with
  | (if ?b then _ else _) = _ => destruct b eqn:Hb; [|discriminate]
  end.
  apply andb_true_iff in Hb as [Hb H3]. apply andb_true_iff in Hb as [H1 H2].
  apply negb_true_iff, orb_false_iff in H3 as [H3 H4]. apply negb_true_iff in H2.
  assert (Hne : text <> []) by (destruct text; [discriminate H1 | apply cons_ne]).
  injection H as <-. cbn [level anchor title].
  change (get_attr [105; 100] h) with (get_attr (u "id") h).
  destruct (get_attr (u "id") h) as [|a rest] eqn:Ea.
  - repeat split; auto.
    + destruct text; [congruence|apply cons_ne].
    + apply length_map.
    + apply Forall_forall. intros c Hc. apply in_map_iff in Hc as [x [<- _]].
      destruct (anchor_char is_word x) eqn:Ex; [left; exact Ex | right; reflexivity].
    + intros Hc. congruence.
  - repeat split; auto; try apply cons_ne; intros; discriminate.
Qed.

(** X4: every entry of the heading fallback path has a level between 2 and
    6, a non-empty anchor, and a title that does not start with [[編集]]. *)
Theorem fallback_items_level_anchor : forall is_word all e,
  In e (fallback_items is_word all) ->
  2 <= level e <= 6 /\ anchor e <> [] /\ startswith edit_marker (title e) = false.
Proof.
  intros is_word all e H. unfold fallback_items in H.
  apply in_collect in H as [[h a] [_ Hh]].
  destruct (is_heading h) eqn:Eh; [|discriminate].
  destruct (heading_item_facts _ _ _ _ Hh) as [Hl [Ha [Hs _]]].
  destruct (is_heading_name h Eh) as [d [Hn Hd]].
  destruct (heading_level_from_tag_range h) as [_ Hk].
  rewrite Hl, (Hk d Hn ltac:(lia)). split; [lia|]. auto.
Qed.

(** X5: a heading without an [id] gets an anchor generated from its title:
    of the same length, every character either in the anchor class
    [[\w぀-ゟ゠-ヿ一-龯]] or ['_']; a heading with a non-empty [id] gets
    that [id] as its anchor. *)
Theorem heading_item_anchor : forall is_word h anc e,
  heading_item is_word h anc = Some e ->
  (get_attr (u "id") h = [] ->
     List.length (anchor e) = List.length (title e)
     /\ Forall (fun c => anchor_char is_word c = true \/ c = 95) (anchor e))
  /\ (get_attr (u "id") h <> [] -> anchor e = get_attr (u "id") h).
Proof.
  intros is_word h anc e H. apply (heading_item_facts _ _ _ _ H).
Qed.

Lemma toc_item_of_link_words : forall link anc e,
  toc_item_of_link link anc = Some e ->
  lower_is (title e) [30446; 27425] = false /\ lower_is (title e) (u "contents") = false
  /\ lower_is (title e) (u "table of contents") = false.
Proof.
  intros link anc e H. unfold toc_item_of_link in H. cbv zeta in H.
  destruct (startswith (u "#") (get_attr (u "href") link)); [|discriminate].
  match type of H with
  | (if ?b then _ else _) = _ => destruct b eqn:Hb; [discriminate|]
  end.
  injection H as <-. cbn [title].
  apply orb_false_iff in Hb as [Hb _]. unfold toc_heading_words in Hb. cbn [existsb] in Hb.
  apply orb_false_iff in Hb as [H1 Hb]. apply orb_false_iff in Hb as [H2 Hb].
  apply orb_false_iff in Hb as [H3 _]. auto.
Qed.

(** X6: no entry of the extracted TOC has the title "contents" or "目次"
    in any letter case, on either path. *)
Theorem extract_toc_no_contents_title : forall is_word url soup e,
  In e (result_toc (extract_toc is_word url soup)) ->
  lower_is (title e) (u "contents") = false /\ lower_is (title e) [30446; 27425] = false.
Proof.
  intros is_word url soup e H. unfold extract_toc in H. cbn [result_toc] in H.
  destruct (primary_items (descendants [] soup)) as [|p ps'] eqn:P.
  - unfold fallback_items in H. apply in_collect in H as [[h a] [_ Hh]].
    destruct (is_heading h); [|discriminate].
    destruct (heading_item_facts _ _ _ _ Hh) as [_ [_ [_ [H1 [H2 _]]]]]. auto.
  - rewrite <- P in H. unfold primary_items in H.
    destruct (find _ (descendants [] soup)) as [[t anc]|]; [|contradiction].
    apply in_collect in H as [[l a] [_ Hl]].
    destruct (is_named (u "a") l); [|discriminate].
    destruct (toc_item_of_link_words _ _ _ Hl) as [H1 [H2 _]]. auto.
Qed.

Lemma validate_empty_rejected : forall nfkc ip, fst (validate_wikipedia_url nfkc ip (Some [])) = false.
Proof. reflexivity. Qed.

Lemma status_of_scrape : forall is_word fo s,
  status_of (scrape_wikipedia_toc is_word fo s) =
  match fo with FetchOk _ => 200 | FetchTimeout => 504 | _ => 500 end.
Proof. intros is_word [] s; reflexivity. Qed.

(** X8: for a GET event (or one without [httpMethod]) whose
    [queryStringParameters] is a dict with a string [url] that
    [validate_wikipedia_url] accepts, the handler returns the scrape result
    of that URL, with status 200 when the page was fetched and parsed, 504
    on a request timeout and 500 on any other fetch or parse failure. *)
Theorem lambda_handler_accepted_url : forall nfkc ip is_word fetch ev q s,
  method_is_get ev = true ->
  dict_get (u "queryStringParameters") ev = Some (PDict q) ->
  dict_get (u "url") q = Some (PStr s) ->
  fst (validate_wikipedia_url nfkc ip (Some s)) = true ->
  lambda_handler nfkc ip is_word fetch (PDict ev) =
    response_scraped (scrape_wikipedia_toc is_word (fetch s) s)
  /\ statusCode (lambda_handler nfkc ip is_word fetch (PDict ev)) =
    match fetch s with FetchOk _ => 200 | FetchTimeout => 504 | _ => 500 end.
Proof.
  intros nfkc ip is_word fetch ev q s Hm Hq Hu Hv.
  assert (E : lambda_handler nfkc ip is_word fetch (PDict ev) =
              response_scraped (scrape_wikipedia_toc is_word (fetch s) s)).
  { unfold lambda_handler. unfold method_is_get in Hm. rewrite Hm. cbn [negb].
    rewrite Hq. destruct q as [|kv q'].
    { discriminate Hu. }
    cbn [truthy]. rewrite Hu.
    destruct s as [|c s'].
    { rewrite validate_empty_rejected in Hv. discriminate Hv. }
    cbn [truthy negb].
    match goal with |- context [validate_wikipedia_url ?a ?b ?x] =>
      change (validate_wikipedia_url a b x) with (validate_wikipedia_url nfkc ip (Some (c :: s')))
    end.
    destruct (validate_wikipedia_url nfkc ip (Some (c :: s'))) as [b m] eqn:V.
    assert (Hb : b = true) by (change b with (fst (b, m)); rewrite <- V; exact Hv).
    rewrite Hb. reflexivity. }
  split; [exact E|]. rewrite E. apply status_of_scrape.
Qed.

Ltac internal_err := right; eexists; split;
  [right; right; right; eexists; reflexivity | intros; reflexivity].
Ltac missing := right; eexists; split; [right; left; reflexivity | intros; reflexivity].

(** Every path of [lambda_handler]: either it reaches the scrape with an
    accepted URL [s], or it answers without calling [fetch]. *)
Lemma lambda_handler_fetch_cases : forall nfkc ip is_word ev,
  (exists s, fst (validate_wikipedia_url nfkc ip (Some s)) = true /\
     forall fetch, lambda_handler nfkc ip is_word fetch ev =
                   response_scraped (scrape_wikipedia_toc is_word (fetch s) s))
  \/ (exists r, (r = response_405 \/ r = response_missing_url
                \/ (exists m s, r = response_invalid_url m s)
                \/ (exists m, r = response_internal_error m))
               /\ forall fetch, lambda_handler nfkc ip is_word fetch ev = r).
Proof.
  intros nfkc ip is_word ev. unfold lambda_handler.
  destruct ev as [| | | | |kvs];
    try (right; eexists; split; [right; right; right; eexists; reflexivity | intros; reflexivity]).
  destruct (negb _).
  { right. eexists. split; [left; reflexivity | intros; reflexivity]. }
  destruct (dict_get (u "queryStringParameters") kvs) as [v|]; [destruct (truthy v)|];
    [|missing|missing].
  destruct v as [| | | | |q]; try internal_err.
  destruct (dict_get (u "url") q) as [w|]; [|missing].
  destruct (truthy w) eqn:T; [|missing].
  destruct w as [| | |s| |]; try internal_err.
  destruct (validate_wikipedia_url nfkc ip (Some s)) as [b m] eqn:V.
  destruct b; cbn [negb].
  - left. exists s. split; [rewrite V; reflexivity | intros; reflexivity].
  - right. eexists. split; [right; right; left; do 2 eexists; reflexivity | intros; reflexivity].
Qed.

(** X9: the handler fetches only URLs that [validate_wikipedia_url]
    accepts: two fetch functions that agree on accepted URLs give the same
    response to every event. *)
Theorem lambda_handler_fetches_only_accepted : forall nfkc ip is_word f1 f2 ev,
  (forall s, fst (validate_wikipedia_url nfkc ip (Some s)) = true -> f1 s = f2 s) ->
  lambda_handler nfkc ip is_word f1 ev = lambda_handler nfkc ip is_word f2 ev.
Proof.
  intros nfkc ip is_word f1 f2 ev H.
  destruct (lambda_handler_fetch_cases nfkc ip is_word ev) as [[s [Hv E]] | [r [_ E]]].
  - rewrite !E. rewrite (H s Hv). reflexivity.
  - rewrite !E. reflexivity.
Qed.

Lemma extract_toc_success : forall is_word url soup,
  exists t toc n, extract_toc is_word url soup = Success url t toc n.
Proof. intros. unfold extract_toc. do 3 eexists. reflexivity. Qed.

Definition body_success (r : response) : option pyval :=
  match body r with PDict kvs => dict_get (u "success") kvs | _ => None end.

(** X10: on every event, the [success] field of the response body is
    [true] exactly when the status is 200; a response with status 200 or
    504 carries [Cache-Control: public, max-age=300], and a 400 or 405
    response carries no [Cache-Control] header. *)
Theorem lambda_handler_success_status : forall nfkc ip is_word fetch ev,
  let r := lambda_handler nfkc ip is_word fetch ev in
  body_success r = Some (PBool (statusCode r =? 200))
  /\ (statusCode r = 200 \/ statusCode r = 504 ->
      header_value (u "Cache-Control") r = Some (u "public, max-age=300"))
  /\ (statusCode r = 400 \/ statusCode r = 405 ->
      header_value (u "Cache-Control") r = None).
Proof.
  intros nfkc ip is_word fetch ev r. subst r.
  destruct (lambda_handler_fetch_cases nfkc ip is_word ev) as [[s [Hv E]] | [r [Hr E]]];
    rewrite E.
  - unfold response_scraped. cbn [statusCode]. rewrite status_of_scrape.
    destruct (fetch s) as [| m | m | soup].
    1-3: cbn; (split; [reflexivity|split]); intros [H|H]; try discriminate H; reflexivity.
    destruct (extract_toc_success is_word s soup) as [t [toc [n X]]].
    cbn [scrape_wikipedia_toc]. rewrite X.
    cbn; (split; [reflexivity|split]); intros [H|H]; try discriminate H; reflexivity.
  - destruct Hr as [->|[->|[[m [s' ->]]|[m ->]]]]; cbn;
      (split; [reflexivity|split]); intros [H|H]; try discriminate H; reflexivity.
Qed.

(** X11: a 200 response comes from fetching and parsing an accepted URL
    and is the extraction result of that page; a 504 response comes from a
    request timeout on an accepted URL. *)
Theorem lambda_handler_status_origin : forall nfkc ip is_word fetch ev,
  let r := lambda_handler nfkc ip is_word fetch ev in
  (statusCode r = 200 ->
   exists s soup, fst (validate_wikipedia_url nfkc ip (Some s)) = true /\ fetch s = FetchOk soup
                  /\ r = response_scraped (extract_toc is_word s soup))
  /\ (statusCode r = 504 ->
      exists s, fst (validate_wikipedia_url nfkc ip (Some s)) = true /\ fetch s = FetchTimeout).
Proof.
  intros nfkc ip is_word fetch ev r. subst r.
  destruct (lambda_handler_fetch_cases nfkc ip is_word ev) as [[s [Hv E]] | [r [Hr E]]];
    rewrite E.
  - cbn [statusCode response_scraped]. rewrite status_of_scrape.
    destruct (fetch s) as [| m | m | soup] eqn:F; split; intros H; try discriminate H.
    + exists s. split; assumption.
    + exists s, soup. repeat split; assumption.
  - destruct Hr as [->|[->|[[m [s' ->]]|[m ->]]]]; split; intros H; discriminate H.
Qed.

Lemma status_of_ne_400 : forall r, status_of r <> 400.
Proof. intros [] ; simpl; [discriminate|]. destruct (is_infix _ _); discriminate. Qed.

(** X12: the handler answers with the "URL parameter is required" 400
    response exactly when the method is GET (or absent) and either
    [queryStringParameters] is absent or falsy, or it is a dict whose
    [url] is absent or falsy (empty string, [None], [0], [false], ...). *)
Theorem lambda_handler_missing_url_iff : forall nfkc ip is_word fetch ev,
  lambda_handler nfkc ip is_word fetch (PDict ev) = response_missing_url <->
  method_is_get ev = true /\
  match dict_get (u "queryStringParameters") ev with
  | None => True
  | Some v => truthy v = false \/
              exists q, v = PDict q /\
                        match dict_get (u "url") q with None => True | Some w => truthy w = false end
  end.
Proof.
  intros nfkc ip is_word fetch ev. split.
  - intros H. destruct (method_is_get ev) eqn:M.
    2:{ rewrite (lambda_handler_method nfkc ip is_word fetch ev M) in H. discriminate H. }
    split; [reflexivity|].
    unfold lambda_handler in H. unfold method_is_get in M. rewrite M in H. cbn [negb] in H.
    destruct (dict_get (u "queryStringParameters") ev) as [v|]; [|exact I].
    destruct (truthy v) eqn:T; [right|left; reflexivity].
    destruct v as [| | | | |q]; try discriminate H.
    exists q. split; [reflexivity|].
    destruct (dict_get (u "url") q) as [w|]; [|exact I].
    destruct (truthy w) eqn:Tw; [|reflexivity]. exfalso. cbn [negb] in H.
    destruct w as [| | |s| |]; try discriminate H.
    destruct (validate_wikipedia_url nfkc ip (Some s)) as [[|] m]; cbn [negb] in H.
    + pose proof (f_equal statusCode H) as Hs. exact (status_of_ne_400 _ Hs).
    + discriminate H.
  - intros [M Hq]. unfold lambda_handler. unfold method_is_get in M. rewrite M. cbn [negb].
    destruct (dict_get (u "queryStringParameters") ev) as [v|]; [|reflexivity].
    destruct Hq as [T | [q [-> Hu]]].
    + rewrite T. reflexivity.
    + destruct q as [|kv q']; [reflexivity|]. cbn [truthy].
      destruct (dict_get (u "url") (kv :: q')) as [w|]; [|reflexivity].
      rewrite Hu. reflexivity.
Qed.

(** X16: an article URL [https://<host>/wiki/<a>] whose host has no
    ['/'], ['?'], ['#'] and passes [urlsplit]'s netloc checks, and whose
    article part has no ['?'], ['#'], [';'] and no trailing whitespace, is
    accepted exactly when the host ends in [.wikipedia.org] (case
    sensitively), does not start with [m.] or [commons.], and the decoded
    article name is non-empty and starts with no forbidden prefix. *)
Theorem validate_article_url_accepted_iff : forall nfkc ip host a,
  no_char_of [47; 63; 35; 9; 13; 10] host = true ->
  no_char_of [63; 35; 59; 9; 13; 10] a = true ->
  head_not py_isspace (rev a) ->
  netloc_brackets_ok ip host && checknetloc nfkc host = true ->
  (validate_wikipedia_url nfkc ip (Some (article_url host a)) = (true, []) <->
   endswith (u ".wikipedia.org") host = true
   /\ startswith (u "m.") host = false /\ startswith (u "commons.") host = false
   /\ unquote a <> [] /\ first_match forbidden_patterns (unquote a) = None).
Proof.
  intros nfkc ip host a Hh Ha Hr Hn.
  rewrite validate_article_url by assumption. rewrite Hn.
  unfold validate_parsed. cbn [pr_scheme pr_netloc pr_path].
  change (skipn 6 (u "/wiki/" ++ a)) with a.
  change (ueqb (u "https") (u "https")) with true.
  change (startswith (u "/wiki/") (u "/wiki/" ++ a)) with true.
  change (startswith (u "/w/") (u "/wiki/" ++ a)) with false.
  change (startswith (u "/api/") (u "/wiki/" ++ a)) with false.
  change (startswith (u "/trap/") (u "/wiki/" ++ a)) with false.
  cbn [negb].
  destruct (endswith (u ".wikipedia.org") host);
    [|split; [intros H; discriminate H | intros [H _]; discriminate H]].
  cbn [negb].
  destruct (startswith (u "m.") host), (startswith (u "commons.") host); cbn [orb];
    try (split; [intros H; discriminate H | intros [_ [H1 [H2 _]]]; discriminate]).
  destruct (unquote a) as [|c r].
  { split; [intros H; discriminate H | intros [_ [_ [_ [H _]]]]; congruence]. }
  destruct (first_match forbidden_patterns (c :: r)).
  - split; [intros H; discriminate H | intros [_ [_ [_ [_ H]]]]; discriminate H].
  - split; [intros _; repeat split; auto; apply cons_ne|reflexivity].
Qed.


Lemma concat_repeat_spaces : forall m, List.concat (repeat (u "  ") m) = repeat 32 (2 * m).
Proof.
  induction m as [|m IH]; [reflexivity|].
  replace (2 * S m)%nat with (S (S (2 * m))) by lia.
  cbn [repeat List.concat]. rewrite IH. reflexivity.
Qed.

Lemma py_repeat_some : forall s n x, py_repeat s n = Some x ->
  x = List.concat (repeat s (Z.to_nat n)).
Proof.
  intros s n x H. unfold py_repeat in H.
  destruct (_ || _); [discriminate H|].
  destruct (Z.leb_spec n 0).
  - injection H as <-. replace (Z.to_nat n) with O by lia. reflexivity.
  - destruct (_ <? _); [discriminate H|]. injection H as <-. reflexivity.
Qed.

Lemma py_repeat_spaces : forall n x, py_repeat (u "  ") n = Some x ->
  x = repeat 32 (2 * Z.to_nat n).
Proof.
  intros n x H. rewrite (py_repeat_some _ _ _ H). apply concat_repeat_spaces.
Qed.

(** ["  " * n] raises [OverflowError] for [n] below [-2**63] or from
    [2**62] on. *)
Lemma py_repeat_spaces_overflow : forall n,
  n < - 2 ^ 63 \/ 2 ^ 62 <= n -> py_repeat (u "  ") n = None.
Proof.
  intros n H. unfold py_repeat, py_ssize_t_max.
  assert (E63 : 2 ^ 63 = 9223372036854775808) by reflexivity.
  assert (E62 : 2 ^ 62 = 4611686018427387904) by reflexivity.
  rewrite E63. rewrite E63, E62 in H.
  destruct (Z.ltb_spec n (- (9223372036854775808 - 1) - 1)); [reflexivity|].
  destruct (Z.ltb_spec (9223372036854775808 - 1) n); [reflexivity|]. cbn [orb].
  destruct (Z.leb_spec n 0); [lia|].
  replace ((9223372036854775808 - 1) / n <? Z.of_nat (List.length (u "  "))) with true;
    [reflexivity|].
  symmetry. apply Z.ltb_lt. cbn. apply Z.div_lt_upper_bound; lia.
Qed.

Lemma py_repeat_rule : forall n, 0 <= n <= 1000 ->
  py_repeat (u "=") n = Some (repeat 61 (Z.to_nat n)).
Proof.
  intros n Hn. unfold py_repeat, py_ssize_t_max.
  destruct (Z.ltb_spec n (- (2 ^ 63 - 1) - 1)); [lia|].
  destruct (Z.ltb_spec (2 ^ 63 - 1) n); [lia|]. cbn [orb].
  destruct (Z.leb_spec n 0).
  - replace (Z.to_nat n) with O by lia. reflexivity.
  - replace ((2 ^ 63 - 1) / n <? Z.of_nat (List.length (u "="))) with false.
    + f_equal. induction (Z.to_nat n) as [|m IH]; [reflexivity|].
      cbn [repeat List.concat]. rewrite IH. reflexivity.
    + symmetry. apply Z.ltb_ge. cbn. apply Z.div_le_lower_bound; lia.
Qed.

(** The level range in which ["  " * (level - 1)] does not overflow. *)
Definition indent_overflows (e : TocEntry) : Prop :=
  level e - 1 < - 2 ^ 63 \/ 2 ^ 62 <= level e - 1.





Definition opt_or_nil (o : option ustr) : ustr :=
  match o with
  | Some x => x
  | None => []
  end.

(** The lines the loop of [print_toc_detailed] prints when it raises
    nothing. *)
Fixpoint detailed_lines (i n : Z) (items : list TocEntry) : list ustr :=
  match items with
  | [] => []
  | e :: rest =>
      let indent := repeat 32 (2 * Z.to_nat (level e - 1)) in
      [opt_or_nil (fmt_2d i) ++ u ". " ++ indent ++ u "[H" ++ opt_or_nil (py_str (level e))
         ++ u "] " ++ title e;
       u "     " ++ indent ++ u "    -> " ++ href e]
      ++ (if i <? n then [[]] else [])
      ++ detailed_lines (i + 1) n rest
  end.

Lemma print_items_detailed_ok : forall items i n k,
  snd (print_items_detailed i n items k) = None ->
  snd k = None
  /\ fst (print_items_detailed i n items k) = detailed_lines i n items ++ fst k
  /\ (forall j e, nth_error items j = Some e ->
      fmt_2d (i + Z.of_nat j) <> None /\ py_str (level e) <> None).
Proof.
  induction items as [|e rest IH]; intros i n k H.
  - split; [exact H|]. split; [reflexivity|]. intros j e' Hj. destruct j; discriminate Hj.
  - cbn [print_items_detailed] in *. unfold or_raise in *.
    destruct (py_repeat (u "  ") (level e - 1)) as [x|] eqn:E1; [|discriminate H].
    destruct (fmt_2d i) as [a|] eqn:E2; [|discriminate H].
    destruct (py_str (level e)) as [b|] eqn:E3; [|discriminate H].
    rewrite (py_repeat_spaces _ _ E1) in *.
    destruct (i <? n) eqn:L; cbn [print_line fst snd] in *;
      destruct (IH (i + 1) n k H) as [H1 [H2 H3]];
      (split; [exact H1|]); (split; [rewrite H2; cbn [detailed_lines]; rewrite E2, E3, L; reflexivity|]);
      (intros [|j] e' Hj;
       [ injection Hj as <-; rewrite Z.add_0_r, E2, E3; split; discriminate
       | cbn [nth_error] in Hj; replace (i + Z.of_nat (S j)) with (i + 1 + Z.of_nat j) by lia;
         exact (H3 j e' Hj) ]).
Qed.

Lemma print_items_detailed_raise : forall items i n k e,
  In e items -> indent_overflows e -> snd (print_items_detailed i n items k) <> None.
Proof.
  induction items as [|e0 rest IH]; intros i n k e Hin Ho; [destruct Hin|].
  cbn [print_items_detailed]. unfold or_raise.
  destruct Hin as [<-|Hin].
  - rewrite py_repeat_spaces_overflow by exact Ho. discriminate.
  - destruct (py_repeat (u "  ") (level e0 - 1)); [|discriminate].
    destruct (fmt_2d i); [|discriminate].
    destruct (py_str (level e0)); [|discriminate].
    destruct (i <? n); cbn [print_line snd]; exact (IH (i + 1) n k e Hin Ho).
Qed.

Lemma detailed_lines_length : forall items i n,
  items <> [] -> n = i + Z.of_nat (List.length items) - 1 ->
  S (List.length (detailed_lines i n items)) = (3 * List.length items)%nat.
Proof.
  induction items as [|e rest IH]; intros i n Hne Hn; [contradiction Hne; reflexivity|].
  cbn [detailed_lines]. rewrite !length_app. cbn [List.length].
  destruct rest as [|e' rest'].
  - cbn [List.length] in Hn. replace (i <? n) with false by (symmetry; apply Z.ltb_ge; lia).
    reflexivity.
  - replace (i <? n) with true by (symmetry; apply Z.ltb_lt; cbn [List.length] in Hn; lia).
    assert (Hn' : n = i + 1 + Z.of_nat (List.length (e' :: rest')) - 1)
      by (cbn [List.length] in *; lia).
    specialize (IH (i + 1) n ltac:(discriminate) Hn').
    cbn [List.length] in *. unfold ustr in *. lia.
Qed.

Lemma detailed_lines_nth : forall items i n k e tail,
  n = i + Z.of_nat (List.length items) - 1 -> nth_error items k = Some e ->
  let indent := repeat 32 (2 * Z.to_nat (level e - 1)) in
  nth_error (detailed_lines i n items ++ tail) (3 * k) =
    Some (opt_or_nil (fmt_2d (i + Z.of_nat k)) ++ u ". " ++ indent ++ u "[H"
          ++ opt_or_nil (py_str (level e)) ++ u "] " ++ title e)
  /\ nth_error (detailed_lines i n items ++ tail) (3 * k + 1) =
    Some (u "     " ++ indent ++ u "    -> " ++ href e)
  /\ nth_error (detailed_lines i n items ++ tail) (3 * k + 2) =
    (if i + Z.of_nat k <? n then Some [] else nth_error tail 0).
Proof.
  induction items as [|e0 rest IH]; intros i n k e tail Hn Hk indent;
    [destruct k; discriminate Hk|].
  cbn [detailed_lines]. rewrite <- !app_assoc.
  destruct k as [|k].
  - injection Hk as <-. rewrite Z.add_0_r.
    change (3 * 0)%nat with O. cbn [Nat.add app nth_error].
    split; [reflexivity|split; [reflexivity|]].
    destruct (i <? n) eqn:L; [reflexivity|].
    apply Z.ltb_ge in L. destruct rest; [reflexivity|]. cbn [List.length] in Hn. lia.
  - cbn [nth_error] in Hk.
    destruct rest as [|e1 rest']; [destruct k; discriminate Hk|].
    assert (L : (i <? n) = true) by (apply Z.ltb_lt; cbn [List.length] in Hn; lia).
    rewrite L.
    specialize (IH (i + 1) n k e tail ltac:(cbn [List.length] in *; lia) Hk).
    cbn zeta in IH. fold indent in IH.
    replace (i + Z.of_nat (S k)) with (i + 1 + Z.of_nat k) by lia.
    replace (3 * S k)%nat with (S (S (S (3 * k)))) by lia.
    replace (3 * S k + 1)%nat with (S (S (S (3 * k + 1)))) by lia.
    replace (3 * S k + 2)%nat with (S (S (S (3 * k + 2)))) by lia.
    cbn [app nth_error]. exact IH.
Qed.

(** X18: for a non-empty list of [n] entries, [print_toc_detailed]
    raises when an entry's level makes ["  " * (level - 1)] overflow; when
    it returns normally it has printed [3n + 3] lines: a header of three
    lines, then for entry [k] (from 0) its number [k + 1] formatted with
    [{:2d}], the indent, the level tag [[H<level>]] and the title, then a
    line with the indent and the [href], then a blank line, except after
    the last entry, which is followed by the closing rule of 80 ['=']. *)
Theorem print_toc_detailed_lines : forall toc_items,
  toc_items <> [] ->
  let n := List.length toc_items in
  (forall e, In e toc_items -> indent_overflows e -> snd (print_toc_detailed toc_items) <> None)
  /\ (snd (print_toc_detailed toc_items) = None ->
      let out := fst (print_toc_detailed toc_items) in
      List.length out = (3 * n + 3)%nat
      /\ (forall k e, nth_error toc_items k = Some e ->
          let indent := repeat 32 (2 * Z.to_nat (level e - 1)) in
          exists num lv, fmt_2d (Z.of_nat k + 1) = Some num /\ py_str (level e) = Some lv
          /\ nth_error out (3 + 3 * k) =
               Some (num ++ u ". " ++ indent ++ u "[H" ++ lv ++ u "] " ++ title e)
          /\ nth_error out (4 + 3 * k) = Some (u "     " ++ indent ++ u "    -> " ++ href e)
          /\ nth_error out (5 + 3 * k) = Some (if (k + 1 <? n)%nat then [] else repeat 61 80))).
Proof.
  intros toc H n. destruct toc as [|e0 rest]; [contradiction H; reflexivity|].
  set (toc := e0 :: rest) in *.
  assert (Hp : print_toc_detailed toc =
     (repeat 61 80 :: [30446; 27425; 65288; 35443; 32048; 34920; 31034; 65289] :: repeat 61 80
        :: fst (print_items_detailed 1 (Z.of_nat n) toc ([repeat 61 80], None)),
      snd (print_items_detailed 1 (Z.of_nat n) toc ([repeat 61 80], None)))).
  { unfold print_toc_detailed, toc, n. rewrite (py_repeat_rule 80) by lia. reflexivity. }
  rewrite Hp. clear Hp. split.
  { intros e Hin Ho. cbn [snd]. exact (print_items_detailed_raise toc _ _ _ e Hin Ho). }
  intros Hn. cbv zeta. cbn [snd fst] in Hn |- *.
  destruct (print_items_detailed_ok toc 1 (Z.of_nat n) _ Hn) as [_ [Hf Hs]].
  rewrite Hf. cbn [fst]. clear Hf. split.
  - cbn [List.length]. rewrite length_app. cbn [List.length].
    pose proof (detailed_lines_length toc 1 (Z.of_nat n) H ltac:(unfold n; lia)).
    unfold n in *. lia.
  - intros k e Hk. set (indent := repeat 32 (2 * Z.to_nat (level e - 1))).
    destruct (Hs k e Hk) as [F1 F2].
    destruct (fmt_2d (1 + Z.of_nat k)) as [num|] eqn:Fn; [|contradiction F1; reflexivity].
    destruct (py_str (level e)) as [lv|] eqn:Fl; [|contradiction F2; reflexivity].
    exists num, lv. rewrite Z.add_comm. split; [exact Fn|]. split; [reflexivity|].
    destruct (detailed_lines_nth toc 1 (Z.of_nat n) k e [repeat 61 80]
                ltac:(unfold n; lia) Hk) as [A [B C]].
    cbn zeta in A, B. fold indent in A, B. rewrite Fn, Fl in A. cbn [opt_or_nil] in A.
    replace (3 + 3 * k)%nat with (S (S (S (3 * k)))) by lia.
    replace (4 + 3 * k)%nat with (S (S (S (3 * k + 1)))) by lia.
    replace (5 + 3 * k)%nat with (S (S (S (3 * k + 2)))) by lia.
    cbn [nth_error]. split; [exact A|split; [exact B|]]. rewrite C.
    destruct (Nat.ltb_spec (k + 1) n), (Z.ltb_spec (1 + Z.of_nat k) (Z.of_nat n));
      try reflexivity; lia.
Qed.

Lemma validate_parsed_accepts : forall p,
  fst (validate_parsed p) = true ->
  article_name_of p <> [] /\ first_match forbidden_patterns (article_name_of p) = None.
Proof.
  intros p H. unfold validate_parsed in H. unfold article_name_of.
  repeat match type of H with
         | context [if ?b then _ else _] => destruct b; cbn [fst] in H; try discriminate H
         end.
  match type of H with context [first_match ?a ?b] => destruct (first_match a b) eqn:F end;
    cbn [fst] in H; [discriminate H|].
  split; [apply cons_ne|reflexivity].
Qed.

(** X19: when no file name (or an empty one) is given, [export_to_json]
    on the result of scraping an accepted, stripped URL does not raise
    while choosing its file name, and the name it passes to [open] is the
    decoded article name of the URL followed by [_toc.json] when the fetch
    succeeded, and [wikipedia_toc.json] for a failed result. Whether
    [open] then succeeds (a ['/'] in the name, say, needs a directory) is
    outside the model; its errors are caught and printed. *)
Theorem export_filename_accepted : forall nfkc ip is_word s fo,
  py_strip s = s ->
  fst (validate_wikipedia_url nfkc ip (Some s)) = true ->
  exists parsed, urlparse nfkc ip s = Some parsed
    /\ article_name_of parsed <> []
    /\ first_match forbidden_patterns (article_name_of parsed) = None
    /\ (forall filename, filename = None \/ filename = Some [] ->
        export_filename nfkc ip (scrape_wikipedia_toc is_word fo s) filename =
          Some (match fo with
                | FetchOk _ => article_name_of parsed ++ u "_toc.json"
                | _ => u "wikipedia_toc.json"
                end)).
Proof.
  intros nfkc ip is_word s fo Hs Hv.
  destruct s as [|a t]; [rewrite validate_empty_rejected in Hv; discriminate Hv|].
  rewrite (validate_some_stripped nfkc ip (a :: t) a t Hs) in Hv.
  destruct (urlparse nfkc ip (a :: t)) as [p|] eqn:Ep; [|discriminate Hv].
  destruct (validate_parsed_accepts p Hv) as [H1 H2].
  exists p. split; [reflexivity|]. split; [exact H1|]. split; [exact H2|].
  intros filename Hf.
  assert (Hn : forall r, export_filename nfkc ip r filename = export_filename nfkc ip r None)
    by (intros r; destruct Hf as [-> | ->]; reflexivity).
  rewrite Hn. clear Hn Hf.
  destruct fo as [| m | m | soup]; try reflexivity.
  cbn [scrape_wikipedia_toc].
  destruct (extract_toc_success is_word (a :: t) soup) as [ti [toc [n X]]]. rewrite X.
  unfold export_filename. cbv beta iota.
  match goal with |- context [urlparse ?x ?y ?z] =>
    replace (urlparse x y z) with (Some p) by exact (eq_sym Ep) end.
  reflexivity.
Qed.

(** ** Concrete instances of the further properties *)

Definition ex_anchor_doc : node :=
  doc [el "h2" [] [] [txt "One two"; el "span" [] ["mw-editsection"] [txt "[edit]"]];
       el "h3" [("id", "t")] [] [txt "Three"]].

Definition ex_event : list (ustr * pyval) :=
  [(u "queryStringParameters", PDict [(u "url", ps "https://en.wikipedia.org/wiki/Test")])].

Definition fetch_timeout (s : ustr) : fetch_outcome := FetchTimeout.

Definition ex_toc : list TocEntry :=
  [ {| level := 1; title := u "A"; anchor := u "a"; href := u "#a" |};
    {| level := 3; title := u "B"; anchor := u "b"; href := u "#b" |} ].

Definition ex_negative_entry : TocEntry :=
  {| level := - 2 ^ 63; title := u "A"; anchor := u "a"; href := u "#a" |}.


Lemma heading_level_from_tag_range_witness :
  get_heading_level_from_tag (el "h4" [] [] []) = 4.
Proof.
  apply (proj2 (heading_level_from_tag_range (el "h4" [] [] [])) 52); [reflexivity | lia].
Defined.

Lemma toc_item_level_ul_count_witness :
  get_heading_level_from_toc_item
    [el "li" [] [] []; el "ul" [] [] []; el "li" [] [] []; el "ul" [] [] []; el "div" [] [] []] = 2
  /\ 1 <= get_heading_level_from_toc_item
    [el "li" [] [] []; el "ul" [] [] []; el "li" [] [] []; el "ul" [] [] []; el "div" [] [] []].
Proof.
  apply toc_item_level_ul_count. reflexivity.
Defined.

Lemma toc_item_level_from_class_witness :
  get_heading_level_from_toc_item [el "li" [] ["toclevel-12"; "tocsection-3"] []; el "ul" [] [] []] = 12.
Proof.
  apply (proj1 (toc_item_level_from_class
           [el "li" [] ["toclevel-12"; "tocsection-3"] []; el "ul" [] [] []]
           (el "li" [] ["toclevel-12"; "tocsection-3"] [])
           [el "ul" [] [] []] 12 [u "tocsection-3"] eq_refl eq_refl ltac:(lia))).
  unfold int_max_str_digits. lia.
Defined.

Lemma fallback_items_level_anchor_witness :
  let e := {| level := 2; title := u "One two"; anchor := u "One_two"; href := u "#One_two" |} in
  2 <= level e <= 6 /\ anchor e <> [] /\ startswith edit_marker (title e) = false.
Proof.
  apply (fallback_items_level_anchor is_word_ascii (descendants [] ex_anchor_doc)).
  vm_compute. left. reflexivity.
Defined.

Lemma heading_item_anchor_witness :
  let e := {| level := 2; title := u "One two"; anchor := u "One_two"; href := u "#One_two" |} in
  (get_attr (u "id") (el "h2" [] [] [txt "One two"]) = [] ->
     List.length (anchor e) = List.length (title e)
     /\ Forall (fun c => anchor_char is_word_ascii c = true \/ c = 95) (anchor e))
  /\ (get_attr (u "id") (el "h2" [] [] [txt "One two"]) <> [] ->
      anchor e = get_attr (u "id") (el "h2" [] [] [txt "One two"])).
Proof.
  apply (heading_item_anchor is_word_ascii (el "h2" [] [] [txt "One two"]) [ex_anchor_doc]).
  vm_compute. reflexivity.
Defined.

Lemma extract_toc_no_contents_title_witness :
  let e := {| level := 3; title := u "Three"; anchor := u "t"; href := u "#t" |} in
  lower_is (title e) (u "contents") = false /\ lower_is (title e) [30446; 27425] = false.
Proof.
  apply (extract_toc_no_contents_title is_word_ascii (u "x") ex_anchor_doc).
  vm_compute. right. left. reflexivity.
Defined.

Lemma lambda_handler_accepted_url_witness :
  lambda_handler nfkc_ascii ip_address_none is_word_ascii fetch_timeout (PDict ex_event) =
    response_scraped (scrape_wikipedia_toc is_word_ascii FetchTimeout
                        (u "https://en.wikipedia.org/wiki/Test"))
  /\ statusCode (lambda_handler nfkc_ascii ip_address_none is_word_ascii fetch_timeout
                   (PDict ex_event)) = 504.
Proof.
  apply (lambda_handler_accepted_url nfkc_ascii ip_address_none is_word_ascii fetch_timeout
           ex_event [(u "url", ps "https://en.wikipedia.org/wiki/Test")]
           (u "https://en.wikipedia.org/wiki/Test")); vm_compute; reflexivity.
Defined.

Lemma lambda_handler_fetches_only_accepted_witness :
  lambda_handler nfkc_ascii ip_address_none is_word_ascii
    (fun s => if fst (validate_wikipedia_url nfkc_ascii ip_address_none (Some s))
              then FetchTimeout else FetchFailed [])
    (PDict [(u "queryStringParameters", PDict [(u "url", ps "http://en.wikipedia.org/wiki/Test")])])
  = lambda_handler nfkc_ascii ip_address_none is_word_ascii fetch_timeout
    (PDict [(u "queryStringParameters", PDict [(u "url", ps "http://en.wikipedia.org/wiki/Test")])]).
Proof.
  apply lambda_handler_fetches_only_accepted.
  intros s H. rewrite H. reflexivity.
Defined.

Lemma lambda_handler_success_status_witness :
  header_value (u "Cache-Control")
    (lambda_handler nfkc_ascii ip_address_none is_word_ascii fetch_timeout (PDict ex_event))
  = Some (u "public, max-age=300")
  /\ header_value (u "Cache-Control")
       (lambda_handler nfkc_ascii ip_address_none is_word_ascii fetch_timeout (PDict []))
     = None.
Proof.
  split.
  - apply (lambda_handler_success_status nfkc_ascii ip_address_none is_word_ascii fetch_timeout
             (PDict ex_event)).
    right. vm_compute. reflexivity.
  - apply (lambda_handler_success_status nfkc_ascii ip_address_none is_word_ascii fetch_timeout
             (PDict [])).
    left. vm_compute. reflexivity.
Defined.

Lemma lambda_handler_status_origin_witness :
  exists s, fst (validate_wikipedia_url nfkc_ascii ip_address_none (Some s)) = true
            /\ fetch_timeout s = FetchTimeout.
Proof.
  apply (lambda_handler_status_origin nfkc_ascii ip_address_none is_word_ascii fetch_timeout
           (PDict ex_event)).
  vm_compute. reflexivity.
Defined.

Lemma lambda_handler_missing_url_iff_witness :
  lambda_handler nfkc_ascii ip_address_none is_word_ascii fetch_timeout
    (PDict [(u "httpMethod", ps "GET"); (u "queryStringParameters", PDict [(u "url", ps "")])])
  = response_missing_url.
Proof.
  apply lambda_handler_missing_url_iff. split; [reflexivity|].
  right. eexists. split; [reflexivity|]. reflexivity.
Defined.

Lemma validate_article_url_accepted_iff_witness :
  validate_wikipedia_url nfkc_ascii ip_address_none
    (Some (article_url (u "en.Wikipedia.org") (u "Test"))) = (true, []) <->
  endswith (u ".wikipedia.org") (u "en.Wikipedia.org") = true
  /\ startswith (u "m.") (u "en.Wikipedia.org") = false
  /\ startswith (u "commons.") (u "en.Wikipedia.org") = false
  /\ unquote (u "Test") <> [] /\ first_match forbidden_patterns (unquote (u "Test")) = None.
Proof.
  apply validate_article_url_accepted_iff; vm_compute; first [reflexivity | exact I].
Defined.


Lemma print_toc_detailed_lines_witness :
  List.length (fst (print_toc_detailed ex_toc)) = 9%nat
  /\ (exists num lv, fmt_2d 2 = Some num /\ py_str 3 = Some lv
      /\ nth_error (fst (print_toc_detailed ex_toc)) 6 =
           Some (num ++ u ". " ++ repeat 32 4 ++ u "[H" ++ lv ++ u "] " ++ u "B"))
  /\ snd (print_toc_detailed [ex_negative_entry]) <> None.
Proof.
  destruct (print_toc_detailed_lines ex_toc ltac:(intros H; discriminate H)) as [_ N].
  destruct (N ltac:(vm_compute; reflexivity)) as [L K].
  split; [exact L|]. split.
  - destruct (K 1%nat _ eq_refl) as [num [lv [A [B [C _]]]]].
    exists num, lv. split; [exact A|]. split; [exact B|]. exact C.
  - apply (proj1 (print_toc_detailed_lines [ex_negative_entry] ltac:(intros H; discriminate H))
             ex_negative_entry).
    + left. reflexivity.
    + left. cbn [level ex_negative_entry]. lia.
Defined.

Lemma export_filename_accepted_witness :
  exists parsed,
    urlparse nfkc_ascii ip_address_none (u "https://en.wikipedia.org/wiki/Caf%C3%A9") = Some parsed
    /\ article_name_of parsed <> []
    /\ first_match forbidden_patterns (article_name_of parsed) = None
    /\ (forall filename, filename = None \/ filename = Some [] ->
        export_filename nfkc_ascii ip_address_none
          (scrape_wikipedia_toc is_word_ascii (FetchOk ex_anchor_doc)
             (u "https://en.wikipedia.org/wiki/Caf%C3%A9")) filename =
          Some (article_name_of parsed ++ u "_toc.json")).
Proof.
  apply (export_filename_accepted nfkc_ascii ip_address_none is_word_ascii
           (u "https://en.wikipedia.org/wiki/Caf%C3%A9") (FetchOk ex_anchor_doc));
    vm_compute; reflexivity.
Defined.
